(** * TaskBoard backend API ([server.js])

    A shallow embedding of the Express application of [server.js]: the
    JavaScript values the handlers see, the wall clock and the random
    source they read, the two DynamoDB tables they reach through
    [docClient.send], every route handler, and the middleware and the
    router that lead to them.  Definitions come first, the properties of the
    handlers after them. *)

From Stdlib Require Import ZArith Floats Ascii.
From stdpp Require Import gmap strings list fin_maps pretty sorting.

#[local] Set Warnings "-register-all".

(** ** JavaScript values *)

Module JS.

(** The values that flow through the handlers: what [express.json()]
    parses out of a request body, what the document client returns for
    a stored attribute, and what [res.json] serialises.  Numbers are
    IEEE-754 doubles, objects are maps from property names. *)
Inductive jsval :=
| JUndefined
| JNull
| JBool (b : bool)
| JNum (x : float)
| JStr (s : string)
| JArr (l : list jsval)
| JObj (m : gmap string jsval).

(** ToBoolean: what [if (v)], [!v] and [v || d] test. *)
Definition truthy (v : jsval) : bool :=
  match v with
  | JUndefined | JNull => false
  | JBool b => b
  | JNum x => negb (PrimFloat.eqb x 0 || PrimFloat.is_nan x)
  | JStr s => negb (String.eqb s "")
  | JArr _ | JObj _ => true
  end.

(** [a || b] *)
Definition js_or (a b : jsval) : jsval := if truthy a then a else b.

(** [v !== undefined] *)
Definition defined (v : jsval) : bool :=
  match v with JUndefined => false | _ => true end.

(** [v === 'literal'] against a string literal. *)
Definition is_str (v : jsval) (lit : string) : bool :=
  match v with JStr s => String.eqb s lit | _ => false end.

(** [strings.includes(v)] for an array of string literals. *)
Definition includes (strings : list string) (v : jsval) : bool :=
  existsb (is_str v) strings.

(** Property read [o.k] on an object: [undefined] when [k] is missing. *)
Definition attr (o : gmap string jsval) (k : string) : jsval :=
  default JUndefined (o !! k).

(** An object literal [{k1: v1, k2: v2, ...}]. *)
Definition object (fields : list (string * jsval)) : gmap string jsval :=
  list_to_map fields.

(** [n] as a JavaScript number ([array.length] and the like; exact
    below 2^53). *)
Definition number_of_nat (n : nat) : float :=
  PrimFloat.of_uint63 (Uint63.of_Z (Z.of_nat n)).

Definition number_of_Z (z : Z) : float :=
  if (z <? 0)%Z then (- PrimFloat.of_uint63 (Uint63.of_Z (- z)))%float
  else PrimFloat.of_uint63 (Uint63.of_Z z).

(** The exact value of a finite double as [v * 2^e]. *)
Definition exact_value (x : float) : option (Z * Z) :=
  match Prim2SF x with
  | S754_zero _ => Some (0, 0)%Z
  | S754_finite s m e => Some (if s then Z.neg m else Z.pos m, e)
  | _ => None
  end.

(** [Math.round(x)]: the integer nearest to [x], ties towards
    +infinity, computed on the exact value of the double (up to the
    sign of a zero result). *)
Definition Math_round (x : float) : float :=
  match exact_value x with
  | Some (v, e) =>
      if (0 <=? e)%Z then x
      else number_of_Z ((2 * v + 2 ^ (- e)) / 2 ^ (1 - e))%Z
  | None => x
  end.

(** ToIntegerOrInfinity on a finite double (truncation towards zero). *)
Definition integer_part (x : float) : option Z :=
  match exact_value x with
  | Some (v, e) =>
      Some (if (0 <=? e)%Z then v * 2 ^ e else Z.quot v (2 ^ (- e)))%Z
  | None => None
  end.

(** The value of a hexadecimal digit. *)
Definition hex_digit (c : ascii) : option N :=
  let n := N_of_ascii c in
  if ((48 <=? n) && (n <=? 57))%N then Some (n - 48)%N
  else if ((65 <=? n) && (n <=? 70))%N then Some (n - 55)%N
  else if ((97 <=? n) && (n <=? 102))%N then Some (n - 87)%N
  else None.

(** Where [decodeURIComponent] stands in its input: how far it is into
    an escape [%XX], and the ranges that the octets still to come of a
    UTF-8 sequence must lie in. *)
Inductive escape := Outside | Percent | Digit (high : N).

(** The octets that may follow the first octet [b] of a UTF-8 sequence
    (none after an ASCII octet); [None] when no sequence starts with
    [b].  Overlong forms, surrogates and code points above 10FFFF are
    no UTF-8. *)
Definition utf8_tail (b : N) : option (list (N * N)) :=
  let cont := (128, 191)%N in
  if (b <? 128)%N then Some []
  else if (b <? 194)%N then None
  else if (b <? 224)%N then Some [cont]
  else if (b =? 224)%N then Some [(160, 191)%N; cont]
  else if (b =? 237)%N then Some [(128, 159)%N; cont]
  else if (b <? 240)%N then Some [cont; cont]
  else if (b =? 240)%N then Some [(144, 191)%N; cont; cont]
  else if (b <? 244)%N then Some [cont; cont; cont]
  else if (b =? 244)%N then Some [(128, 143)%N; cont; cont]
  else None.

Fixpoint decode (e : escape) (tail : list (N * N)) (s : string)
  : option string :=
  match s with
  | EmptyString =>
      match e, tail with Outside, [] => Some EmptyString | _, _ => None end
  | String c s' =>
      match e with
      | Outside =>
          if Ascii.eqb c "%" then decode Percent tail s'
          else match tail with
               | [] => String c <$> decode Outside [] s'
               | _ => None
               end
      | Percent => high ← hex_digit c; decode (Digit high) tail s'
      | Digit high =>
          low ← hex_digit c;
          let b := (16 * high + low)%N in
          match tail with
          | [] => t ← utf8_tail b; String (ascii_of_N b) <$> decode Outside t s'
          | (lo, hi) :: t =>
              if ((lo <=? b) && (b <=? hi))%N
              then String (ascii_of_N b) <$> decode Outside t s'
              else None
          end
      end
  end.

(** [decodeURIComponent(s)]: every escape [%XX] is replaced by its
    octet, and the escaped octets above 127 must form UTF-8 sequences;
    [None] is the URIError thrown otherwise.  (Strings are kept as
    their UTF-8 octets.) *)
Definition decodeURIComponent (s : string) : option string :=
  decode Outside [] s.

End JS.
Export JS.

Abbreviation item := (gmap string jsval).

(** ** Dates *)

Module DateTime.
#[local] Open Scope Z_scope.

Definition msPerDay : Z := 86400000.

(** Days since 1970-01-01 of a proleptic Gregorian date. *)
Definition days_from_civil (y m d : Z) : Z :=
  let y := if m <=? 2 then y - 1 else y in
  let era := y / 400 in
  let yoe := y - era * 400 in
  let doy := (153 * (if 2 <? m then m - 3 else m + 9) + 2) / 5 + d - 1 in
  let doe := yoe * 365 + yoe / 4 - yoe / 100 + doy in
  era * 146097 + doe - 719468.

(** Year, month and day of a day number. *)
Definition civil_from_days (z : Z) : Z * Z * Z :=
  let z := z + 719468 in
  let era := z / 146097 in
  let doe := z - era * 146097 in
  let yoe := (doe - doe / 1460 + doe / 36524 - doe / 146096) / 365 in
  let doy := doe - (365 * yoe + yoe / 4 - yoe / 100) in
  let mp := (5 * doy + 2) / 153 in
  let d := doy - (153 * mp + 2) / 5 + 1 in
  let m := if mp <? 10 then mp + 3 else mp - 9 in
  (if m <=? 2 then yoe + era * 400 + 1 else yoe + era * 400, m, d).

Definition is_leap (y : Z) : bool :=
  (y mod 4 =? 0) && (negb (y mod 100 =? 0) || (y mod 400 =? 0)).

Definition days_in_month (y m : Z) : Z :=
  if m =? 2 then (if is_leap y then 29 else 28)
  else if (m =? 4) || (m =? 6) || (m =? 9) || (m =? 11) then 30 else 31.

Definition digit_char (n : Z) : ascii := ascii_of_nat (48 + Z.to_nat (n mod 10)).

(** The [w] low decimal digits of [n], most significant first. *)
Fixpoint digits (w : nat) (n : Z) : string :=
  match w with
  | O => ""
  | S w' => digits w' (n / 10) +:+ String (digit_char n) ""
  end.

(** [new Date(t).toISOString()] for a time value [t] in milliseconds
    since the epoch: [YYYY-MM-DDTHH:mm:ss.sssZ], with the expanded
    six-digit signed year outside 0..9999. *)
Definition toISOString (t : Z) : string :=
  let day := t / msPerDay in
  let ms := t mod msPerDay in
  let '(y, m, d) := civil_from_days day in
  let year :=
    if (0 <=? y) && (y <=? 9999) then digits 4 y
    else (if y <? 0 then "-" else "+") +:+ digits 6 (Z.abs y) in
  year +:+ "-" +:+ digits 2 m +:+ "-" +:+ digits 2 d +:+ "T" +:+
  digits 2 (ms / 3600000) +:+ ":" +:+ digits 2 (ms / 60000 mod 60) +:+ ":" +:+
  digits 2 (ms / 1000 mod 60) +:+ "." +:+ digits 3 (ms mod 1000) +:+ "Z".

Definition digit_of (c : ascii) : option Z :=
  let n := nat_of_ascii c in
  if ((48 <=? n) && (n <=? 57))%nat then Some (Z.of_nat (n - 48)) else None.

Fixpoint read_digits (w : nat) (acc : Z) (s : string) : option (Z * string) :=
  match w with
  | O => Some (acc, s)
  | S w' =>
      match s with
      | String c s' =>
          match digit_of c with
          | Some d => read_digits w' (10 * acc + d) s'
          | None => None
          end
      | EmptyString => None
      end
  end.

Definition read_char (c : ascii) (s : string) : option string :=
  match s with
  | String c' s' => if Ascii.eqb c c' then Some s' else None
  | EmptyString => None
  end.

Definition read_year (s : string) : option (Z * string) :=
  match s with
  | String "+"%char s' => read_digits 6 0 s'
  | String "-"%char s' =>
      '(y, r) ← read_digits 6 0 s';
      if y =? 0 then None else Some (- y, r)
  | _ => read_digits 4 0 s
  end.

(** [Date.parse] on the strings that [toISOString] writes,
    [YYYY-MM-DDTHH:mm:ss.sssZ] with a four-digit or an expanded year:
    the time value, or [None] for a date that does not exist or lies
    out of range.  [new Date] reads more than that: the other forms of
    the ECMAScript date-time format (a date alone, a time without
    seconds or milliseconds, a UTC offset, the hour 24) and whatever the
    implementation accepts besides.  Those strings are outside this
    definition: it answers [None] on them, which tells nothing about
    the code, and the statements below read a date only from what
    [toISOString] wrote. *)
Definition Date_parse (s : string) : option Z :=
  '(y, s) ← read_year s;
  s ← read_char "-"%char s;
  '(m, s) ← read_digits 2 0 s;
  s ← read_char "-"%char s;
  '(d, s) ← read_digits 2 0 s;
  s ← read_char "T"%char s;
  '(hh, s) ← read_digits 2 0 s;
  s ← read_char ":"%char s;
  '(mm, s) ← read_digits 2 0 s;
  s ← read_char ":"%char s;
  '(ss, s) ← read_digits 2 0 s;
  s ← read_char "."%char s;
  '(mss, s) ← read_digits 3 0 s;
  s ← read_char "Z"%char s;
  if negb (String.eqb s "") then None
  else if negb ((1 <=? m) && (m <=? 12) && (1 <=? d) && (d <=? days_in_month y m)
                && (hh <=? 23) && (mm <=? 59) && (ss <=? 59)) then None
  else
    let t := days_from_civil y m d * msPerDay
             + hh * 3600000 + mm * 60000 + ss * 1000 + mss in
    if Z.abs t <=? 8640000000000000 then Some t else None.

(** The time value of [new Date(v)]; [None] is an invalid date.  An
    object or an array other than a one-string array converts to a
    string that is not in the date-time format. *)
Definition Date_value (v : jsval) : option Z :=
  match v with
  | JUndefined => None
  | JNull => Some 0
  | JBool b => Some (if b then 1 else 0)
  | JNum x =>
      t ← integer_part x;
      if Z.abs t <=? 8640000000000000 then Some t else None
  | JStr s => Date_parse s
  | JArr [JStr s] => Date_parse s
  | JArr _ | JObj _ => None
  end.

(** [new Date(b) - new Date(a)]: NaN as soon as one date is invalid. *)
Definition Date_minus (b a : jsval) : option Z :=
  tb ← Date_value b; ta ← Date_value a; Some (tb - ta).

End DateTime.
Export DateTime.

(** ** The environment of a request: store, clock, random source *)

Module Runtime.

(** [TASKS_TABLE] and [BOARDS_TABLE] (their names come from the process
    environment and are not interpreted). *)
Inductive Table := TASKS_TABLE | BOARDS_TABLE.

(** Everything outside the process that a handler reads or writes.
    Both tables are keyed by the string attribute [id].
    [clock_now] is the wall clock in milliseconds; after a reading the
    clock moves on by the next of [clock_ticks] (it stands still once
    they are used up).  [random_pool] holds the strings that the next
    calls of [Math.random().toString(36).substr(2, 9)] produce.
    [store_faults] tells for each coming call of [docClient.send]
    whether it fails (service unreachable, throttled, ...). *)
Record World := {
  task_store : gmap string item;
  board_store : gmap string item;
  clock_now : Z;
  clock_ticks : list N;
  random_pool : list string;
  store_faults : list bool
}.

Definition table (t : Table) (w : World) : gmap string item :=
  match t with TASKS_TABLE => task_store w | BOARDS_TABLE => board_store w end.

Definition set_table (t : Table) (m : gmap string item) (w : World) : World :=
  match t with
  | TASKS_TABLE =>
      {| task_store := m; board_store := board_store w; clock_now := clock_now w;
         clock_ticks := clock_ticks w; random_pool := random_pool w;
         store_faults := store_faults w |}
  | BOARDS_TABLE =>
      {| task_store := task_store w; board_store := m; clock_now := clock_now w;
         clock_ticks := clock_ticks w; random_pool := random_pool w;
         store_faults := store_faults w |}
  end.

Definition tick (w : World) : World :=
  {| task_store := task_store w; board_store := board_store w;
     clock_now := (clock_now w + Z.of_N (hd 0%N (clock_ticks w)))%Z;
     clock_ticks := tl (clock_ticks w); random_pool := random_pool w;
     store_faults := store_faults w |}.

Definition draw (w : World) : World :=
  {| task_store := task_store w; board_store := board_store w;
     clock_now := clock_now w; clock_ticks := clock_ticks w;
     random_pool := tl (random_pool w); store_faults := store_faults w |}.

Definition next_call (w : World) : World :=
  {| task_store := task_store w; board_store := board_store w;
     clock_now := clock_now w; clock_ticks := clock_ticks w;
     random_pool := random_pool w; store_faults := tl (store_faults w) |}.

(** A computation either returns or throws, and may change the world. *)
Inductive outcome (A : Type) :=
| Returned (a : A)
| Thrown (error : string).
Arguments Returned {A} a.
Arguments Thrown {A} error.

Definition M (A : Type) : Type := World → outcome A * World.

Definition ret {A} (a : A) : M A := λ w, (Returned a, w).

Definition bind {A B} (m : M A) (k : A → M B) : M B :=
  λ w, match m w with
       | (Returned a, w') => k a w'
       | (Thrown e, w') => (Thrown e, w')
       end.

Definition throw {A} (e : string) : M A := λ w, (Thrown e, w).

(** [try { body } catch (error) { handler }] *)
Definition try_catch {A} (body : M A) (handler : string → M A) : M A :=
  λ w, match body w with
       | (Returned a, w') => (Returned a, w')
       | (Thrown e, w') => handler e w'
       end.

Notation "'let!' x ':=' m 'in' k" := (bind m (λ x, k))
  (at level 10, x name, m at level 100, k at level 200).

(** [Date.now()] and the time value of [new Date()]. *)
Definition Date_now : M Z := λ w, (Returned (clock_now w), tick w).

(** [new Date().toISOString()] *)
Definition new_Date_toISOString : M string :=
  let! t := Date_now in ret (toISOString t).

(** [Math.random().toString(36).substr(2, 9)] *)
Definition Math_random_suffix : M string :=
  λ w, (Returned (hd "" (random_pool w)), draw w).

End Runtime.
Export Runtime.

(** ** The document client *)

Module Dynamo.

(** The commands of [@aws-sdk/lib-dynamodb] that the server sends.  An
    update expression [SET a = :a, #b = :b] is kept as its list of
    assignments [(a, :a); (#b, :b)], a filter expression [a = :a] as
    the pair [(a, :a)]; both are resolved against the expression
    attribute names and values as the service does. *)
Inductive Command :=
| GetCommand (TableName : Table) (Key : jsval)
| PutCommand (TableName : Table) (Item : item)
| UpdateCommand (TableName : Table) (Key : jsval)
    (UpdateExpression : list (string * string))
    (ExpressionAttributeValues : item)
    (ExpressionAttributeNames : option (gmap string string))
| DeleteCommand (TableName : Table) (Key : jsval)
| ScanCommand (TableName : Table)
    (FilterExpression : option (string * string))
    (ExpressionAttributeValues : item).

(** What a command answers: [result.Item], [result.Attributes] (with
    [ReturnValues: 'ALL_NEW']) and [result.Items]. *)
Record CommandOutput := {
  Item : option item;
  Attributes : option item;
  Items : list item
}.

Definition no_output : CommandOutput :=
  {| Item := None; Attributes := None; Items := [] |}.

(** The key attribute [id] is of type string. *)
Definition key_of (k : jsval) : option string :=
  match k with JStr s => Some s | _ => None end.

(** Equality of two attribute values of scalar type. *)
Definition scalar_eqb (a b : jsval) : bool :=
  match a, b with
  | JStr x, JStr y => String.eqb x y
  | JNum x, JNum y => PrimFloat.eqb x y
  | JBool x, JBool y => Bool.eqb x y
  | JNull, JNull => true
  | _, _ => false
  end.

(** An attribute name of an expression: [#n] is looked up in the
    expression attribute names, anything else stands for itself. *)
Definition resolve_name (names : option (gmap string string)) (n : string)
  : option string :=
  match n with
  | String "#"%char _ => names ≫= (λ ns, ns !! n)
  | _ => Some n
  end.

(** The assignments of a SET expression as attribute/value pairs. *)
Fixpoint resolve_sets (names : option (gmap string string)) (values : item)
    (sets : list (string * string)) : option (list (string * jsval)) :=
  match sets with
  | [] => Some []
  | (n, ph) :: rest =>
      a ← resolve_name names n;
      v ← values !! ph;
      l ← resolve_sets names values rest;
      Some ((a, v) :: l)
  end.

Definition apply_sets (sets : list (string * jsval)) (it : item) : item :=
  foldl (λ acc av, <[av.1 := av.2]> acc) it sets.

(** Does an item pass the filter [a = :a]? *)
Definition passes (condition : option (string * string)) (values : item)
    (it : item) : bool :=
  match condition with
  | None => true
  | Some (a, ph) =>
      match it !! a, values !! ph with
      | Some x, Some v => scalar_eqb x v
      | _, _ => false
      end
  end.

(** The items of a table in scan order (the whole table: a scan is
    taken to fit in one page). *)
Definition scan (m : gmap string item) : list item := (map_to_list m).*2.

(** The effect of a command that reaches the service. *)
Definition execute (c : Command) : M CommandOutput :=
  match c with
  | GetCommand t k =>
      match key_of k with
      | None => throw "ValidationException"
      | Some id =>
          λ w, (Returned {| Item := table t w !! id; Attributes := None;
                            Items := [] |}, w)
      end
  | PutCommand t it =>
      match it !! "id" ≫= key_of with
      | None => throw "ValidationException"
      | Some id => λ w, (Returned no_output, set_table t (<[id := it]> (table t w)) w)
      end
  | UpdateCommand t k sets values names =>
      match key_of k, resolve_sets names values sets with
      | Some id, Some l =>
          λ w, let old := default {[ "id" := JStr id ]} (table t w !! id) in
               let new := apply_sets l old in
               (Returned {| Item := None; Attributes := Some new; Items := [] |},
                set_table t (<[id := new]> (table t w)) w)
      | _, _ => throw "ValidationException"
      end
  | DeleteCommand t k =>
      match key_of k with
      | None => throw "ValidationException"
      | Some id => λ w, (Returned no_output, set_table t (delete id (table t w)) w)
      end
  | ScanCommand t condition values =>
      λ w, (Returned {| Item := None; Attributes := None;
                        Items := List.filter (passes condition values)
                                   (scan (table t w)) |}, w)
  end.

(** [await docClient.send(command)]: the call fails when the next entry
    of [store_faults] says so, and otherwise has its effect. *)
Definition docClient_send (c : Command) : M CommandOutput :=
  λ w, match store_faults w with
       | true :: _ => (Thrown "ServiceUnavailable", next_call w)
       | _ => execute c (next_call w)
       end.

End Dynamo.
Export Dynamo.

(** ** The Express application *)

Module Server.

(** What a handler reads of [req].  [express.json()] leaves an object in
    [req.body]: the parsed JSON object, or [{}] when the request has no
    JSON body (a JSON array has none of the properties read here). *)
Record Request := {
  params : gmap string string;   (* req.params *)
  query : gmap string string;    (* req.query *)
  body : item                    (* req.body *)
}.

(** What a handler sends: [res.status(code).json(payload)]. *)
Record Response := {
  status : nat;
  json : item
}.

Definition res_status_json (code : nat) (payload : item) : Response :=
  {| status := code; json := payload |}.

(** [res.json(payload)] answers with the default status 200. *)
Definition res_json (payload : item) : Response := res_status_json 200 payload.

(** [req.params.name], [req.query.name] *)
Definition param (req : Request) (name : string) : jsval :=
  default JUndefined (JStr <$> params req !! name).

Definition query_param (req : Request) (name : string) : jsval :=
  default JUndefined (JStr <$> query req !! name).

(** A list of items as a JavaScript array. *)
Definition array (l : list item) : jsval := JArr (JObj <$> l).

(** [result.Attributes], which may be undefined. *)
Definition optional (o : option item) : jsval :=
  match o with Some it => JObj it | None => JUndefined end.

(** [{ success: false, error: message }] *)
Definition failure (message : string) : item :=
  object [("success", JBool false); ("error", JStr message)].

(** [Array.prototype.sort(comparefn)] for a consistent comparator: a
    stable sort, in which [a] comes before [b] when [comparefn(a, b)]
    is negative.  It is computed here by insertion; any stable sort
    gives the same list.  With a comparator that is not consistent
    (one that answers NaN, [None] here, as [by_updatedAt_desc] does on
    an invalid date) ECMAScript leaves the order to the implementation,
    and this definition is not meant to tell it. *)
Definition comes_before {A} (comparefn : A → A → option Z) (a b : A) : bool :=
  match comparefn a b with
  | Some v => (v <? 0)%Z
  | None => false
  end.

Fixpoint sort_insert {A} (comparefn : A → A → option Z) (x : A) (l : list A)
  : list A :=
  match l with
  | [] => [x]
  | y :: l' =>
      if comes_before comparefn y x then y :: sort_insert comparefn x l'
      else x :: y :: l'
  end.

Definition Array_sort {A} (comparefn : A → A → option Z) (l : list A) : list A :=
  foldr (sort_insert comparefn) [] l.

(** [Date.now().toString() + Math.random().toString(36).substr(2, 9)] *)
Definition generateId : M string :=
  let! t := Date_now in
  let! r := Math_random_suffix in
  ret (pretty t +:+ r).

Definition validStatuses : list string := ["todo"; "in-progress"; "done"].

(** [tasks.filter(task => task.status === s)] *)
Definition with_status (s : string) (tasks : list item) : list item :=
  List.filter (λ task, is_str (attr task "status") s) tasks.

(** GET /tasks *)
Definition get_tasks (req : Request) : M Response :=
  try_catch
    (let boardId := query_param req "boardId" in
     let command :=
       if truthy boardId then
         ScanCommand TASKS_TABLE (Some ("boardId", ":boardId"))
           (object [(":boardId", boardId)])
       else ScanCommand TASKS_TABLE None ∅ in
     let! result := docClient_send command in
     let tasks := Items result in
     let organizedTasks :=
       object [("todo", array (with_status "todo" tasks));
               ("in-progress", array (with_status "in-progress" tasks));
               ("done", array (with_status "done" tasks))] in
     ret (res_json (object [("success", JBool true);
                            ("tasks", array tasks);
                            ("tasksByStatus", JObj organizedTasks);
                            ("total", JNum (number_of_nat (length tasks)));
                            ("boardId", js_or boardId JNull)])))
    (λ _, ret (res_status_json 500 (failure "Error fetching tasks"))).

(** GET /tasks/:id *)
Definition get_task (req : Request) : M Response :=
  try_catch
    (let id := param req "id" in
     let command := GetCommand TASKS_TABLE id in
     let! result := docClient_send command in
     match Item result with
     | None => ret (res_status_json 404 (failure "Task not found"))
     | Some it => ret (res_json (object [("success", JBool true); ("task", JObj it)]))
     end)
    (λ _, ret (res_status_json 500 (failure "Error fetching task"))).

(** POST /tasks *)
Definition post_tasks (req : Request) : M Response :=
  try_catch
    (let title := attr (body req) "title" in
     let description := attr (body req) "description" in
     let status := attr (body req) "status" in
     let boardId := attr (body req) "boardId" in
     if negb (truthy title) then
       ret (res_status_json 400 (failure "Title is required"))
     else if negb (truthy boardId) then
       ret (res_status_json 400 (failure "Board ID is required"))
     else
       let boardCommand := GetCommand BOARDS_TABLE boardId in
       let! boardResult := docClient_send boardCommand in
       match Item boardResult with
       | None => ret (res_status_json 404 (failure "Board not found"))
       | Some _ =>
           let taskStatus := js_or status (JStr "todo") in
           if negb (includes validStatuses taskStatus) then
             ret (res_status_json 400
                    (failure "Invalid status. Must be: todo, in-progress, or done"))
           else
             let! id := generateId in
             let! createdAt := new_Date_toISOString in
             let! updatedAt := new_Date_toISOString in
             let task :=
               object [("id", JStr id);
                       ("boardId", boardId);
                       ("title", title);
                       ("description", js_or description (JStr ""));
                       ("status", taskStatus);
                       ("createdAt", JStr createdAt);
                       ("updatedAt", JStr updatedAt)] in
             let command := PutCommand TASKS_TABLE task in
             let! _ := docClient_send command in
             ret (res_status_json 201
                    (object [("success", JBool true); ("task", JObj task)]))
       end)
    (λ _, ret (res_status_json 500 (failure "Error creating task"))).

(** PUT /tasks/:id *)
Definition put_task (req : Request) : M Response :=
  try_catch
    (let id := param req "id" in
     let title := attr (body req) "title" in
     let description := attr (body req) "description" in
     let status := attr (body req) "status" in
     let getCommand := GetCommand TASKS_TABLE id in
     let! existingTask := docClient_send getCommand in
     match Item existingTask with
     | None => ret (res_status_json 404 (failure "Task not found"))
     | Some _ =>
         let! now := new_Date_toISOString in
         let updateExpression := [("updatedAt", ":updatedAt")] in
         let expressionAttributeValues := object [(":updatedAt", JStr now)] in
         let '(updateExpression, expressionAttributeValues) :=
           if truthy title then
             (updateExpression ++ [("title", ":title")],
              <[":title" := title]> expressionAttributeValues)
           else (updateExpression, expressionAttributeValues) in
         let '(updateExpression, expressionAttributeValues) :=
           if defined description then
             (updateExpression ++ [("description", ":description")],
              <[":description" := description]> expressionAttributeValues)
           else (updateExpression, expressionAttributeValues) in
         let update updateExpression expressionAttributeValues :=
           let updateCommand :=
             UpdateCommand TASKS_TABLE id updateExpression expressionAttributeValues
               (if truthy status then Some {[ "#status" := "status" ]} else None) in
           let! result := docClient_send updateCommand in
           ret (res_json (object [("success", JBool true);
                                  ("task", optional (Attributes result))])) in
         if truthy status then
           if negb (includes validStatuses status) then
             ret (res_status_json 400
                    (failure "Invalid status. Must be: todo, in-progress, or done"))
           else
             update (updateExpression ++ [("#status", ":status")])
                    (<[":status" := status]> expressionAttributeValues)
         else update updateExpression expressionAttributeValues
     end)
    (λ _, ret (res_status_json 500 (failure "Error updating task"))).

(** DELETE /tasks/:id *)
Definition delete_task (req : Request) : M Response :=
  try_catch
    (let id := param req "id" in
     let getCommand := GetCommand TASKS_TABLE id in
     let! existingTask := docClient_send getCommand in
     match Item existingTask with
     | None => ret (res_status_json 404 (failure "Task not found"))
     | Some _ =>
         let deleteCommand := DeleteCommand TASKS_TABLE id in
         let! _ := docClient_send deleteCommand in
         ret (res_json (object [("success", JBool true);
                                ("message", JStr "Task deleted successfully")]))
     end)
    (λ _, ret (res_status_json 500 (failure "Error deleting task"))).

(** [tasks.length > 0 ? Math.round((done / tasks.length) * 100) : 0] *)
Definition completionRate (done total : nat) : float :=
  if (0 <? total)%nat then
    Math_round (number_of_nat done / number_of_nat total * 100)%float
  else 0%float.

(** [(a, b) => new Date(b.updatedAt) - new Date(a.updatedAt)] *)
Definition by_updatedAt_desc (a b : item) : option Z :=
  Date_minus (attr b "updatedAt") (attr a "updatedAt").

(** GET /dashboard *)
Definition get_dashboard (req : Request) : M Response :=
  try_catch
    (let command := ScanCommand TASKS_TABLE None ∅ in
     let! result := docClient_send command in
     let tasks := Items result in
     let stats :=
       object [("total", JNum (number_of_nat (length tasks)));
               ("todo", JNum (number_of_nat (length (with_status "todo" tasks))));
               ("inProgress",
                JNum (number_of_nat (length (with_status "in-progress" tasks))));
               ("done", JNum (number_of_nat (length (with_status "done" tasks))));
               ("completionRate",
                JNum (completionRate (length (with_status "done" tasks))
                                     (length tasks)))] in
     ret (res_json (object [("success", JBool true);
                            ("stats", JObj stats);
                            ("recentTasks",
                             array (take 5 (Array_sort by_updatedAt_desc tasks)))])))
    (λ _, ret (res_status_json 500 (failure "Error fetching dashboard stats"))).

(** GET /boards *)
Definition get_boards (req : Request) : M Response :=
  try_catch
    (let command := ScanCommand BOARDS_TABLE None ∅ in
     let! result := docClient_send command in
     let boards := Items result in
     ret (res_json (object [("success", JBool true);
                            ("boards", array boards);
                            ("total", JNum (number_of_nat (length boards)))])))
    (λ _, ret (res_status_json 500 (failure "Error fetching boards"))).

(** GET /health *)
Definition get_health (req : Request) : M Response :=
  let! timestamp := new_Date_toISOString in
  ret (res_json (object [("success", JBool true);
                         ("message", JStr "TaskBoard API is running!");
                         ("timestamp", JStr timestamp);
                         ("version", JStr "1.0.0")])).

(** [app.use('*', ...)]: no route matched. *)
Definition not_found (req : Request) : M Response :=
  ret (res_status_json 404 (failure "Endpoint not found")).

(** [app.use((error, req, res, next) => ...)] *)
Definition error_handler (error : string) : Response :=
  res_status_json 500 (failure "Internal server error").

(** An incoming HTTP request: its method ([OTHER] is PATCH and every
    further method), the pieces of its URL path between the slashes as
    they were sent ([/tasks/42] is [["tasks"; "42"]], [/tasks/] is
    [["tasks"; ""]]), its query string, and what [express.json()] made
    of the body ([None] when it could not parse it and passed the error
    on).  The validators of a conditional request are kept apart, see
    [app_given]. *)
Inductive Method := GET | HEAD | POST | PUT | DELETE | OPTIONS | OTHER.

Record HttpRequest := {
  method : Method;
  path : list string;
  search : gmap string string;
  payload : option item
}.

Definition request (ps : list (string * string)) (h : HttpRequest) (b : item)
  : Request :=
  {| params := list_to_map ps; query := search h; body := b |}.

(** What the client receives: a status code with a JSON body, or a
    status code alone. *)
Inductive Answer :=
| Body (r : Response)
| NoBody (code : nat).

Definition code (a : Answer) : nat :=
  match a with Body r => status r | NoBody c => c end.

Definition content (a : Answer) : option item :=
  match a with Body r => Some (json r) | NoBody _ => None end.

(** Express compares the fixed pieces of a path without regard to the
    case of the letters A to Z (routing is not case sensitive). *)
Definition lower_case (c : ascii) : ascii :=
  let n := N_of_ascii c in
  if ((65 <=? n) && (n <=? 90))%N then ascii_of_N (n + 32) else c.

Fixpoint lower (s : string) : string :=
  match s with
  | EmptyString => EmptyString
  | String c s' => String (lower_case c) (lower s')
  end.

Definition is_piece (name piece : string) : bool :=
  String.eqb (lower piece) name.

(** Express takes a path with or without one slash at its end (routing
    is not strict). *)
Fixpoint strip_slash (p : list string) : list string :=
  match p with
  | [] => []
  | piece :: rest =>
      match rest with
      | [] => if String.eqb piece "" then [] else [piece]
      | _ => piece :: strip_slash rest
      end
  end.

(** A route registered with [app.get] also serves HEAD. *)
Definition routed_method (m : Method) : Method :=
  match m with HEAD => GET | _ => m end.

(** The router: the routes of [server.js], which do not overlap, and
    [app.use('*', ...)] for what none of them takes.  The piece that
    stands for [:id] is not empty and reaches the handler decoded; when
    it cannot be decoded the router passes the URIError on, whatever
    the method. *)
Definition route (h : HttpRequest) (b : item) : M Response :=
  let m := routed_method (method h) in
  match strip_slash (path h) with
  | [piece] =>
      if is_piece "tasks" piece then
        match m with
        | GET => get_tasks (request [] h b)
        | POST => post_tasks (request [] h b)
        | _ => not_found (request [] h b)
        end
      else
        match m with
        | GET =>
            if is_piece "dashboard" piece then get_dashboard (request [] h b)
            else if is_piece "boards" piece then get_boards (request [] h b)
            else if is_piece "health" piece then get_health (request [] h b)
            else not_found (request [] h b)
        | _ => not_found (request [] h b)
        end
  | [piece; id] =>
      if is_piece "tasks" piece && negb (String.eqb id "") then
        match decodeURIComponent id with
        | None => throw "URIError"
        | Some id =>
            match m with
            | GET => get_task (request [("id", id)] h b)
            | PUT => put_task (request [("id", id)] h b)
            | DELETE => delete_task (request [("id", id)] h b)
            | _ => not_found (request [] h b)
            end
        end
      else not_found (request [] h b)
  | _ => not_found (request [] h b)
  end.

(** What the middleware behind [cors()] makes of a request: the body
    parser, the router, and the final error handler for whatever was
    thrown on the way.  The result is the response that a handler or
    the error handler passes to [res.json]. *)
Definition handled (h : HttpRequest) (w : World) : Response * World :=
  let run :=
    match payload h with
    | None => throw "SyntaxError"
    | Some b => route h b
    end in
  match run w with
  | (Returned r, w') => (r, w')
  | (Thrown e, w') => (error_handler e, w')
  end.

(** The validators of a conditional request (its headers If-None-Match
    and If-Modified-Since), as far as Express looks at them: whether
    they match the response that is about to be sent, by its entity
    tag. *)
Definition Validators : Type := Response → bool.

(** A request that is not conditional. *)
Definition no_validators : Validators := λ _, false.

(** [req.fresh]: a GET or HEAD request whose validators match a
    response with a status code from 200 to 299. *)
Definition fresh (v : Validators) (h : HttpRequest) (r : Response) : bool :=
  match method h with
  | GET | HEAD => (200 <=? status r)%nat && (status r <? 300)%nat && v r
  | _ => false
  end.

(** [res.json] ends in [res.send], which answers a fresh request 304
    without a body, and leaves the body out of the answer to a HEAD
    request. *)
Definition res_send (v : Validators) (h : HttpRequest) (r : Response)
  : Answer :=
  if fresh v h r then NoBody 304
  else match method h with
       | HEAD => NoBody (status r)
       | _ => Body r
       end.

(** The application, on a request with the validators [v].
    [app.use(cors())] comes first: with its default options it answers
    every OPTIONS request itself, 204 without a body, and passes every
    other request on (the headers it adds are not modelled). *)
Definition app_given (v : Validators) (h : HttpRequest) (w : World)
  : Answer * World :=
  match method h with
  | OPTIONS => (NoBody 204, w)
  | _ => let '(r, w') := handled h w in (res_send v h r, w')
  end.

(** The application, on a request that is not conditional. *)
Definition app (h : HttpRequest) (w : World) : Answer * World :=
  app_given no_validators h w.

End Server.
Export Server.

(** * Properties *)

(** ** Vocabulary of the statements *)

#[global] Arguments includes : simpl never.
#[global] Arguments object : simpl never.
#[global] Arguments failure : simpl never.

(** The status codes that announce success. *)
Definition success_code (code : nat) : bool :=
  ((code =? 200) || (code =? 201))%nat.

(** The envelope of a response: a boolean [success] that tells whether
    the status code is a success code, and a string [error] on failure. *)
Definition envelope (r : Response) : Prop :=
  json r !! "success" = Some (JBool (success_code (status r))) ∧
  (success_code (status r) = false → ∃ e, json r !! "error" = Some (JStr e)).

(** A handler that always answers, with an envelope. *)
Definition answers (m : M Response) : Prop :=
  ∀ w, ∃ r w', m w = (Returned r, w') ∧ envelope r.

(** The store answers the next [n] calls. *)
Definition store_up (n : nat) (w : World) : Prop :=
  Forall (λ fault, fault = false) (take n (store_faults w)).

(** A field of the request body. *)
Definition field (req : Request) (name : string) : jsval := attr (body req) name.

Definition invalid_status_message : string :=
  "Invalid status. Must be: todo, in-progress, or done".

(** What PUT /tasks/:id makes of a stored item at the time [now]. *)
Definition patch (req : Request) (now : string) (old : item) : item :=
  let it := <["updatedAt" := JStr now]> old in
  let it := if truthy (field req "title")
            then <["title" := field req "title"]> it else it in
  let it := if defined (field req "description")
            then <["description" := field req "description"]> it else it in
  if truthy (field req "status") then <["status" := field req "status"]> it else it.

(** The item that POST /tasks builds from the request, the generated
    id and the two time stamps. *)
Definition new_task (req : Request) (id createdAt updatedAt : string) : item :=
  object [("id", JStr id);
          ("boardId", field req "boardId");
          ("title", field req "title");
          ("description", js_or (field req "description") (JStr ""));
          ("status", js_or (field req "status") (JStr "todo"));
          ("createdAt", JStr createdAt);
          ("updatedAt", JStr updatedAt)].

(** The [n]-th coming reading of the clock, counted from 0. *)
Definition reading (n : nat) (w : World) : Z := clock_now (Nat.iter n tick w).

(** The id that [generateId] makes in [w]. *)
Definition next_id (w : World) : string :=
  pretty (clock_now w) +:+ hd "" (random_pool w).

(** ** What a request does to the tables *)

(** A request that passes the four checks of POST /tasks in [w]. *)
Definition acceptable (req : Request) (w : World) : Prop :=
  truthy (field req "title") = true ∧
  (∃ b, field req "boardId" = JStr b ∧ b ≠ "" ∧ is_Some (board_store w !! b)) ∧
  includes validStatuses (js_or (field req "status") (JStr "todo")) = true.

(** The task that POST /tasks builds for it in [w]. *)
Definition created (req : Request) (w : World) : item :=
  new_task req (next_id w) (toISOString (reading 1 w)) (toISOString (reading 2 w)).

(** A status that PUT /tasks/:id lets through: none, or one of the three. *)
Definition status_passes (req : Request) : Prop :=
  truthy (field req "status") = false ∨
  includes validStatuses (field req "status") = true.

(** Both tables are as they were. *)
Definition writes_nothing (w w' : World) : Prop :=
  task_store w' = task_store w ∧ board_store w' = board_store w.

(** POST /tasks has put the task it built under the generated id, after
    three readings of the clock. *)
Definition creates (req : Request) (w w' : World) : Prop :=
  acceptable req w ∧
  task_store w' = <[next_id w := created req w]> (task_store w) ∧
  board_store w' = board_store w ∧
  clock_now w' = reading 3 w.

(** PUT /tasks/:id has written the patched item back under its id,
    after one reading of the clock. *)
Definition patches (req : Request) (w w' : World) : Prop :=
  ∃ id old,
    params req !! "id" = Some id ∧
    task_store w !! id = Some old ∧
    status_passes req ∧
    task_store w' = <[id := patch req (toISOString (clock_now w)) old]>
                      (task_store w) ∧
    board_store w' = board_store w ∧
    clock_now w' = reading 1 w.

(** DELETE /tasks/:id has removed the item that was stored under the id. *)
Definition removes (req : Request) (w w' : World) : Prop :=
  ∃ id,
    params req !! "id" = Some id ∧
    is_Some (task_store w !! id) ∧
    task_store w' = delete id (task_store w) ∧
    board_store w' = board_store w.


(** Requests handled one after the other: the answers in order, and the
    world that is left.  (Handlers of requests that are in flight
    together interleave at their store calls; that is not modelled.) *)
Fixpoint serve (hs : list HttpRequest) (w : World) : list Answer * World :=
  match hs with
  | [] => ([], w)
  | h :: rest =>
      let '(r, w1) := app h w in
      let '(rs, w2) := serve rest w1 in
      (r :: rs, w2)
  end.

(** A stored task as the handlers write it: its [id] is the key it is
    stored under, its title is not empty, its status is one of the
    three, its [boardId] is the id of a stored board, and its two time
    stamps are the ISO forms of two instants, [createdAt] not after
    [updatedAt] and neither after the clock. *)
Definition task_well_formed (w : World) (k : string) (t : item) : Prop :=
  t !! "id" = Some (JStr k) ∧
  truthy (attr t "title") = true ∧
  includes validStatuses (attr t "status") = true ∧
  (∃ b, attr t "boardId" = JStr b ∧ is_Some (board_store w !! b)) ∧
  ∃ c u, attr t "createdAt" = JStr (toISOString c) ∧
         attr t "updatedAt" = JStr (toISOString u) ∧
         (c ≤ u ≤ clock_now w)%Z.

Definition store_well_formed (w : World) : Prop :=
  ∀ k t, task_store w !! k = Some t → task_well_formed w k t.

(** ** The answers of the handlers *)

(** [{ success: true, task }] with a status code. *)
Definition task_answer (code : nat) (task : item) : Response :=
  res_status_json code (object [("success", JBool true); ("task", JObj task)]).

(** What GET /tasks answers for a list of tasks and the value it echoes
    as [boardId]. *)
Definition listing (tasks : list item) (boardId : jsval) : Response :=
  res_json (object
    [("success", JBool true);
     ("tasks", array tasks);
     ("tasksByStatus",
      JObj (object [("todo", array (with_status "todo" tasks));
                    ("in-progress", array (with_status "in-progress" tasks));
                    ("done", array (with_status "done" tasks))]));
     ("total", JNum (number_of_nat (length tasks)));
     ("boardId", boardId)]).

(** The [stats] of GET /dashboard for the four counts. *)
Definition stats_of (total todo inProgress done : nat) : item :=
  object [("total", JNum (number_of_nat total));
          ("todo", JNum (number_of_nat todo));
          ("inProgress", JNum (number_of_nat inProgress));
          ("done", JNum (number_of_nat done));
          ("completionRate", JNum (completionRate done total))].

(** What GET /health answers at the time [t]. *)
Definition health_answer (t : Z) : Response :=
  res_json (object [("success", JBool true);
                    ("message", JStr "TaskBoard API is running!");
                    ("timestamp", JStr (toISOString t));
                    ("version", JStr "1.0.0")]).

(** ** Sample requests and worlds *)

Definition board_b1 : item := object [("id", JStr "b1"); ("name", JStr "Sprint")].

(** One board, no task, a clock that stands still. *)
Definition world_b1 : World :=
  {| task_store := ∅; board_store := {[ "b1" := board_b1 ]};
     clock_now := 1730000000000; clock_ticks := [];
     random_pool := ["k3j9x0a2q"]; store_faults := [] |}.

Definition with_body (fields : list (string * jsval)) : Request :=
  {| params := ∅; query := ∅; body := object fields |}.

(** A request on the task [id]. *)
Definition on_task (id : string) (fields : list (string * jsval)) : Request :=
  {| params := {[ "id" := id ]}; query := ∅; body := object fields |}.

(** GET /tasks?boardId=[b] *)
Definition list_of_board (b : string) : Request :=
  {| params := ∅; query := {[ "boardId" := b ]}; body := ∅ |}.

Definition set_clock (t : Z) (ticks : list N) (w : World) : World :=
  {| task_store := task_store w; board_store := board_store w;
     clock_now := t; clock_ticks := ticks;
     random_pool := random_pool w; store_faults := store_faults w |}.

(** A task of board [b1], last written at 2024-10-27T03:33:20.000Z,
    which is the time value 1730000000000. *)
Definition task_t1 : item :=
  object [("id", JStr "t1"); ("boardId", JStr "b1"); ("title", JStr "Write report");
          ("description", JStr "draft"); ("status", JStr "todo");
          ("createdAt", JStr "2024-10-27T03:33:20.000Z");
          ("updatedAt", JStr "2024-10-27T03:33:20.000Z")].

Definition set_faults (faults : list bool) (w : World) : World :=
  {| task_store := task_store w; board_store := board_store w;
     clock_now := clock_now w; clock_ticks := clock_ticks w;
     random_pool := random_pool w; store_faults := faults |}.

(** The board and that task, in the millisecond of its last write. *)
Definition world_t1 : World :=
  set_table TASKS_TABLE {[ "t1" := task_t1 ]} world_b1.

(** The same with a store that fails the next call. *)
Definition world_t1_down : World := set_faults [true] world_t1.

(** The same one minute later. *)
Definition world_t1_later : World := set_clock 1730000060000 [] world_t1.

(** The empty board with a clock that moves on by one millisecond
    after its second reading. *)
Definition world_b1_ticking : World := set_clock 1730000000000 [0; 1]%N world_b1.

(** Is the date [a] strictly later than the date [b]? *)
Definition later_than (a b : jsval) : bool :=
  match Date_value a, Date_value b with
  | Some ta, Some tb => (tb <? ta)%Z
  | _, _ => false
  end.

(** What a handler answers in a world, and the world it leaves. *)
Definition response_of (m : M Response) (w : World) : Response :=
  match (m w).1 with
  | Returned r => r
  | Thrown e => error_handler e
  end.

Definition world_after (m : M Response) (w : World) : World := (m w).2.

(** POST /tasks { title: "T1", boardId: "b1" }, and the same with an
    empty [status]. *)
Definition create_T1 : Request :=
  with_body [("title", JStr "T1"); ("boardId", JStr "b1")].

Definition create_T1_empty_status : Request :=
  with_body [("title", JStr "T1"); ("boardId", JStr "b1"); ("status", JStr "")].

(** The same with the number 0 as [status], and a PUT on the task
    [t1] with the status [false]. *)
Definition create_T1_zero_status : Request :=
  with_body [("title", JStr "T1"); ("boardId", JStr "b1");
             ("status", JNum 0%float)].

Definition put_t1_false_status : Request :=
  on_task "t1" [("status", JBool false)].

(** Forty tasks of board [b1], the first twenty-three of them done. *)
Definition sample_id (n : nat) : string := "t" +:+ pretty n.

Definition sample_task (n : nat) : item :=
  object [("id", JStr (sample_id n)); ("boardId", JStr "b1");
          ("title", JStr "Task"); ("description", JStr "");
          ("status", JStr (if (n <? 23)%nat then "done" else "todo"));
          ("createdAt", JStr (toISOString (1729000000000 + Z.of_nat n)));
          ("updatedAt", JStr (toISOString (1729000000000 + Z.of_nat n)))].

Definition world_40 : World :=
  set_table TASKS_TABLE
    (list_to_map ((λ n, (sample_id n, sample_task n)) <$> seq 0 40)) world_b1.

(** The completion rate in the words of the specification: 100 times
    done over total, rounded to the nearest integer (a half goes up, as
    with [Math.round]), and 0 when there is no task. *)
Definition rounded_percentage (done total : nat) : Z :=
  if (total =? 0)%nat then 0%Z
  else ((200 * Z.of_nat done + Z.of_nat total) / (2 * Z.of_nat total))%Z.

(** Is 100 times done over total exactly half-way between two integers? *)
Definition exact_half (done total : nat) : bool :=
  ((200 * Z.of_nat done) mod (2 * Z.of_nat total) =? Z.of_nat total)%Z.

(** The reported rate is the rounded percentage, or one less than it at
    an exact half. *)
Definition rate_agrees (done total : nat) : bool :=
  let rate := completionRate done total in
  let rounded := rounded_percentage done total in
  PrimFloat.eqb rate (number_of_Z rounded)
  || (exact_half done total && PrimFloat.eqb rate (number_of_Z (rounded - 1))).

(** The time value of a task's [updatedAt]. *)
Definition updated (t : item) : option Z := Date_value (attr t "updatedAt").

(** [a] was updated no earlier than [b] (both dates valid). *)
Definition newer_or_same (a b : item) : Prop :=
  ∃ ta tb, updated a = Some ta ∧ updated b = Some tb ∧ (tb ≤ ta)%Z.

(** A time stamp as the handlers write it: what [toISOString] gives for
    a valid date. *)
Definition time_stamp (v : jsval) : Prop :=
  ∃ t, (Z.abs t ≤ 8640000000000000)%Z ∧ v = JStr (toISOString t).

(** An HTTP request with a JSON body and no query string. *)
Definition http (m : Method) (p : list string) (fields : list (string * jsval))
  : HttpRequest :=
  {| method := m; path := p; search := ∅; payload := Some (object fields) |}.

(** A session on the task [t1]: a task is created, [t1] is moved to
    done and then deleted, and the dashboard is read. *)
Definition sample_session : list HttpRequest :=
  [http POST ["tasks"] [("title", JStr "T1"); ("boardId", JStr "b1")];
   http PUT ["tasks"; "t1"] [("status", JStr "done")];
   http DELETE ["tasks"; "t1"] [];
   http GET ["dashboard"] []].

(** The store answers the lookup and fails the write. *)
Definition world_t1_write_down : World := set_faults [false; true] world_t1.

(** ** Devices of the proofs about dates *)

Section DateDevices.
#[local] Open Scope Z_scope.

(** Checking [f] on the [n] integers from [start] on. *)
Fixpoint all_from (f : Z → bool) (start : Z) (n : nat) : bool :=
  match n with
  | O => true
  | S n' => if f start then all_from f (start + 1) n' else false
  end.

(** What [civil_from_days] computes within an era of 146097 days, and
    that [days_from_civil] undoes it. *)
Definition era_check (doe : Z) : bool :=
  let yoe := (doe - doe / 1460 + doe / 36524 - doe / 146096) / 365 in
  let doy := doe - (365 * yoe + yoe / 4 - yoe / 100) in
  let mp := (5 * doy + 2) / 153 in
  let d := doy - (153 * mp + 2) / 5 + 1 in
  let m := if mp <? 10 then mp + 3 else mp - 9 in
  let y0 := if m <=? 2 then yoe + 1 else yoe in
  (0 <=? yoe) && (yoe <=? 399) && (1 <=? m) && (m <=? 12) && (1 <=? d)
  && (d <=? days_in_month y0 m)
  && ((153 * (if 2 <? m then m - 3 else m + 9) + 2) / 5 + d - 1 =? doy)
  && (yoe * 365 + yoe / 4 - yoe / 100 + doy =? doe).

End DateDevices.

(** ** Basic facts *)

Lemma is_str_spec (v : jsval) (s : string) : is_str v s = true ↔ v = JStr s.
Proof.
  destruct v; simpl; try (split; [discriminate | congruence]).
  rewrite String.eqb_eq. split; [congruence | by intros [= ->]].
Qed.

Lemma includes_spec (l : list string) (v : jsval) :
  includes l v = true ↔ ∃ s, v = JStr s ∧ s ∈ l.
Proof.
  unfold includes. rewrite existsb_exists. split.
  - intros (s & Hin & Hs). apply is_str_spec in Hs. exists s.
    split; [done | by apply list_elem_of_In].
  - intros (s & -> & Hin). exists s. split; [by apply list_elem_of_In |].
    by apply is_str_spec.
Qed.

Lemma store_up_S (n : nat) (w : World) :
  store_up (S n) w →
  (store_faults w = [] ∨ ∃ fs, store_faults w = false :: fs) ∧
  store_up n (next_call w).
Proof.
  unfold store_up, next_call. simpl. destruct (store_faults w) as [|f fs]; simpl.
  - intros _. split; [by left |]. by rewrite take_nil.
  - intros H. apply Forall_cons in H as [-> H]. split; [right; eauto | done].
Qed.

Lemma store_up_1 (n : nat) (w : World) : store_up (S n) w → store_up 1 w.
Proof.
  unfold store_up. destruct (store_faults w) as [|f fs]; simpl; [done |].
  intros H. apply Forall_cons in H as [-> _]. rewrite take_0. by constructor.
Qed.

Lemma store_up_none (n : nat) (w : World) : store_faults w = [] → store_up n w.
Proof. unfold store_up. intros ->. rewrite take_nil. constructor. Qed.

Lemma store_up_next (n : nat) (w : World) :
  store_up (S n) w → store_up n (next_call w).
Proof. intros H. by apply store_up_S in H as [_ H]. Qed.

(** A call that the store answers has the effect of its command. *)
Lemma docClient_send_up (c : Command) (w : World) :
  store_up 1 w → docClient_send c w = execute c (next_call w).
Proof.
  intros H. apply store_up_S in H as [[E | [fs E]] _];
    unfold docClient_send; by rewrite E.
Qed.

(** A call either fails without touching the tables or has the effect
    of its command. *)
Lemma docClient_send_cases (c : Command) (w : World) :
  docClient_send c w = (Thrown "ServiceUnavailable", next_call w) ∨
  docClient_send c w = execute c (next_call w).
Proof.
  unfold docClient_send. destruct (store_faults w) as [|[] ?]; auto.
Qed.

Lemma execute_get_board (b : string) (w : World) :
  execute (GetCommand BOARDS_TABLE (JStr b)) w =
  (Returned {| Item := board_store w !! b; Attributes := None; Items := [] |}, w).
Proof. reflexivity. Qed.

Lemma execute_get_task (id : string) (w : World) :
  execute (GetCommand TASKS_TABLE (JStr id)) w =
  (Returned {| Item := task_store w !! id; Attributes := None; Items := [] |}, w).
Proof. reflexivity. Qed.

Lemma param_id (req : Request) (id : string) :
  params req !! "id" = Some id → param req "id" = JStr id.
Proof. unfold param. by intros ->. Qed.

Lemma elem_of_scan (m : gmap string item) (it : item) :
  it ∈ scan m ↔ ∃ k, m !! k = Some it.
Proof.
  unfold scan. rewrite list_elem_of_fmap. split.
  - intros ([k x] & -> & Hin). exists k. by apply elem_of_map_to_list.
  - intros [k Hk]. exists (k, it). split; [done |]. by apply elem_of_map_to_list.
Qed.

Lemma length_scan (m : gmap string item) : length (scan m) = size m.
Proof. unfold scan. by rewrite length_fmap, length_map_to_list. Qed.

Lemma filter_passes_None (l : list item) : List.filter (passes None ∅) l = l.
Proof. induction l as [|x l IH]; simpl; [done | by f_equal]. Qed.

(** ** Dates: reading back what [toISOString] writes *)

Section DateRoundTrip.
#[local] Open Scope Z_scope.

Lemma append_cons (c : ascii) (a b : string) :
  String c a +:+ b = String c (a +:+ b).
Proof. reflexivity. Qed.

Lemma append_empty (b : string) : "" +:+ b = b.
Proof. reflexivity. Qed.

Lemma append_assoc (a b c : string) : (a +:+ b) +:+ c = a +:+ (b +:+ c).
Proof.
  induction a as [|x a IH]; [done |]. rewrite !append_cons. by f_equal.
Qed.

Lemma last_digit (n : Z) :
  ∃ k, (k = 0 ∨ k = 1 ∨ k = 2 ∨ k = 3 ∨ k = 4 ∨ k = 5 ∨ k = 6 ∨ k = 7 ∨ k = 8
        ∨ k = 9) ∧ n mod 10 = k.
Proof.
  exists (n mod 10). split; [| done].
  pose proof (Z.mod_pos_bound n 10). lia.
Qed.

Lemma digit_of_digit_char (n : Z) : digit_of (digit_char n) = Some (n mod 10).
Proof.
  unfold digit_char. destruct (last_digit n) as [k [Hk ->]].
  repeat (destruct Hk as [-> | Hk]; [reflexivity |]). by subst.
Qed.

(** Reading one more digit is reading the digits before it first. *)
Lemma read_digits_last (w : nat) (acc : Z) (s : string) :
  read_digits (S w) acc s =
  '(a, s') ← read_digits w acc s;
  match s' with
  | String c s'' => d ← digit_of c; Some (10 * a + d, s'')
  | EmptyString => None
  end.
Proof.
  revert acc s. induction w as [|w IH]; intros acc s.
  - simpl. destruct s as [|c s]; [done |]. by destruct (digit_of c).
  - change (read_digits (S (S w)) acc s) with
      (match s with
       | String c s' =>
           match digit_of c with
           | Some d => read_digits (S w) (10 * acc + d) s'
           | None => None
           end
       | EmptyString => None
       end).
    destruct s as [|c s]; [done |]. simpl.
    destruct (digit_of c) as [d|]; [| done]. apply IH.
Qed.

(** Reading the [w] digits of [n] back. *)
Lemma read_digits_digits (w : nat) (n acc : Z) (rest : string) :
  0 ≤ n < 10 ^ Z.of_nat w →
  read_digits w acc (digits w n +:+ rest) = Some (acc * 10 ^ Z.of_nat w + n, rest).
Proof.
  revert n acc rest. induction w as [|w IH]; intros n acc rest Hn.
  - simpl in *. rewrite append_empty. f_equal. f_equal. lia.
  - rewrite read_digits_last. cbn [digits]. rewrite append_assoc.
    rewrite Nat2Z.inj_succ, Z.pow_succ_r in * by lia.
    rewrite IH by (split; [apply Z.div_pos; lia | apply Z.div_lt_upper_bound; lia]).
    rewrite append_cons, append_empty. cbn [mbind option_bind].
    rewrite digit_of_digit_char. cbn [mbind option_bind]. f_equal. f_equal.
    pose proof (Z.div_mod n 10). lia.
Qed.

Lemma read_digits_zero (w : nat) (n : Z) (rest : string) :
  0 ≤ n < 10 ^ Z.of_nat w →
  read_digits w 0 (digits w n +:+ rest) = Some (n, rest).
Proof. intros H. rewrite read_digits_digits by done. do 2 f_equal. Qed.

Lemma read_char_literal (c : ascii) (rest : string) :
  read_char c (String c "" +:+ rest) = Some rest.
Proof.
  rewrite append_cons, append_empty. unfold read_char.
  by rewrite Ascii.eqb_refl.
Qed.

(** A year written with four digits is read as a year without sign. *)
Lemma read_year_unsigned (n : Z) (s : string) :
  read_year (String (digit_char n) s) = read_digits 4 0 (String (digit_char n) s).
Proof.
  unfold digit_char. destruct (last_digit n) as [k [Hk ->]].
  repeat (destruct Hk as [-> | Hk]; [reflexivity |]). by subst.
Qed.

Lemma all_from_spec (f : Z → bool) (start : Z) (n : nat) :
  all_from f start n = true →
  ∀ z, start ≤ z < start + Z.of_nat n → f z = true.
Proof.
  revert start. induction n as [|n IH]; intros start H z Hz; [lia |].
  cbn [all_from] in H. destruct (f start) eqn:Hf; [| done].
  destruct (decide (z = start)) as [-> | Hne]; [done |].
  apply (IH (start + 1)); [done | lia].
Qed.

Lemma era_check_all (doe : Z) : 0 ≤ doe < 146097 → era_check doe = true.
Proof.
  intros H. apply (all_from_spec era_check 0 (Z.to_nat 146097)); [| lia].
  vm_compute. reflexivity.
Qed.

Lemma is_leap_era (y era : Z) : is_leap (y + era * 400) = is_leap y.
Proof.
  unfold is_leap.
  replace (y + era * 400) with (y + (era * 100) * 4) at 1 by lia.
  replace (y + era * 400) with (y + (era * 4) * 100) at 1 by lia.
  by rewrite !Z.mod_add by lia.
Qed.

Lemma days_in_month_era (y era m : Z) :
  days_in_month (y + era * 400) m = days_in_month y m.
Proof. unfold days_in_month. by rewrite is_leap_era. Qed.

Lemma days_in_month_le (y m : Z) : days_in_month y m ≤ 31.
Proof. unfold days_in_month. repeat case_match; lia. Qed.

(** The date of a day number is a date of the calendar, and it is the
    date of that day number only. *)
Lemma civil_from_days_spec (z y m d : Z) :
  civil_from_days z = (y, m, d) →
  1 ≤ m ≤ 12 ∧ 1 ≤ d ≤ days_in_month y m ∧ days_from_civil y m d = z ∧
  (z + 719468) / 146097 * 400 ≤ y ≤ (z + 719468) / 146097 * 400 + 400.
Proof.
  unfold civil_from_days.
  set (era := (z + 719468) / 146097).
  set (doe := z + 719468 - era * 146097).
  assert (Hdoe : 0 ≤ doe < 146097).
  { subst doe era. pose proof (Z.div_mod (z + 719468) 146097).
    pose proof (Z.mod_pos_bound (z + 719468) 146097). lia. }
  pose proof (era_check_all doe Hdoe) as Hc. unfold era_check in Hc.
  set (yoe := (doe - doe / 1460 + doe / 36524 - doe / 146096) / 365) in *.
  set (doy := doe - (365 * yoe + yoe / 4 - yoe / 100)) in *.
  set (mp := (5 * doy + 2) / 153) in *.
  set (d0 := doy - (153 * mp + 2) / 5 + 1) in *.
  set (m0 := if mp <? 10 then mp + 3 else mp - 9) in *.
  cbv zeta in Hc.
  repeat (apply andb_true_iff in Hc as [Hc ?]).
  intros [= <- <- <-].
  assert (Hy : (if m0 <=? 2 then yoe + era * 400 + 1 else yoe + era * 400)
               = (if m0 <=? 2 then yoe + 1 else yoe) + era * 400)
    by (destruct (m0 <=? 2); lia).
  rewrite Hy, days_in_month_era.
  split; [lia |]. split; [lia |]. split.
  - unfold days_from_civil.
    replace (if m0 <=? 2
             then (if m0 <=? 2 then yoe + 1 else yoe) + era * 400 - 1
             else (if m0 <=? 2 then yoe + 1 else yoe) + era * 400)
      with (yoe + era * 400) by (destruct (m0 <=? 2); lia).
    cbv zeta.
    assert (He : (yoe + era * 400) / 400 = era).
    { rewrite Z.div_add by lia. rewrite Z.div_small by lia. lia. }
    rewrite He.
    replace (yoe + era * 400 - era * 400) with yoe by lia.
    subst doe. lia.
  - destruct (m0 <=? 2); lia.
Qed.

(** [Date.parse] reads back the time value that [toISOString] wrote. *)
Theorem Date_parse_toISOString (t : Z) :
  Z.abs t ≤ 8640000000000000 → Date_parse (toISOString t) = Some t.
Proof.
  intros Ht. unfold toISOString, msPerDay.
  pose proof (Z.div_mod t 86400000 ltac:(lia)) as Hdm.
  pose proof (Z.mod_pos_bound t 86400000 ltac:(lia)) as Hms.
  set (day := t / 86400000) in *. set (ms := t mod 86400000) in *.
  destruct (civil_from_days day) as [[y m] d] eqn:Hcivil.
  apply civil_from_days_spec in Hcivil as (Hm & Hd & Hback & Hy).
  pose proof (days_in_month_le y m) as Hdim.
  assert (Hera : -700 ≤ (day + 719468) / 146097 ≤ 700).
  { split; [apply Z.div_le_lower_bound | apply Z.div_le_upper_bound]; lia. }
  assert (Hhh : 0 ≤ ms / 3600000 < 24)
    by (split; [apply Z.div_pos | apply Z.div_lt_upper_bound]; lia).
  pose proof (Z.mod_pos_bound (ms / 60000) 60 ltac:(lia)) as Hmm.
  pose proof (Z.mod_pos_bound (ms / 1000) 60 ltac:(lia)) as Hss.
  pose proof (Z.mod_pos_bound ms 1000 ltac:(lia)) as Hmss.
  unfold Date_parse.
  assert (Hyear :
    ∀ rest,
      read_year
        ((if (0 <=? y) && (y <=? 9999) then digits 4 y
          else (if y <? 0 then "-" else "+") +:+ digits 6 (Z.abs y)) +:+ rest)
      = Some (y, rest)).
  { intros rest. destruct ((0 <=? y) && (y <=? 9999)) eqn:Hrange.
    - apply andb_true_iff in Hrange as [H0 H1].
      apply Z.leb_le in H0, H1.
      pose proof (read_digits_zero 4 y rest ltac:(simpl; lia)) as Hread.
      cbn [digits] in *. rewrite !append_assoc, append_empty in *.
      rewrite append_cons in *. by rewrite read_year_unsigned.
    - destruct (y <? 0) eqn:Hneg.
      + apply Z.ltb_lt in Hneg. rewrite append_assoc, append_cons, append_empty.
        cbn [read_year]. rewrite read_digits_zero by (simpl; lia).
        cbn [mbind option_bind].
        destruct (Z.eqb_spec (Z.abs y) 0) as [E | _]; [lia |].
        do 2 f_equal. lia.
      + apply Z.ltb_ge in Hneg. rewrite append_assoc, append_cons, append_empty.
        cbn [read_year]. rewrite read_digits_zero by (simpl; lia).
        do 2 f_equal. lia. }
  rewrite Hyear. cbn [mbind option_bind].
  rewrite read_char_literal. cbn [mbind option_bind].
  rewrite read_digits_zero by (simpl; lia). cbn [mbind option_bind].
  rewrite read_char_literal. cbn [mbind option_bind].
  rewrite read_digits_zero by (simpl; lia). cbn [mbind option_bind].
  rewrite read_char_literal. cbn [mbind option_bind].
  rewrite read_digits_zero by (simpl; lia). cbn [mbind option_bind].
  rewrite read_char_literal. cbn [mbind option_bind].
  rewrite read_digits_zero by (simpl; lia). cbn [mbind option_bind].
  rewrite read_char_literal. cbn [mbind option_bind].
  rewrite read_digits_zero by (simpl; lia). cbn [mbind option_bind].
  rewrite read_char_literal. cbn [mbind option_bind].
  rewrite read_digits_zero by (simpl; lia). cbn [mbind option_bind].
  change ("Z") with (String "Z"%char "" +:+ "").
  rewrite read_char_literal. cbn [mbind option_bind String.eqb negb].
  assert (Hvalid : (1 <=? m) && (m <=? 12) && (1 <=? d) && (d <=? days_in_month y m)
                   && (ms / 3600000 <=? 23) && (ms / 60000 mod 60 <=? 59)
                   && (ms / 1000 mod 60 <=? 59) = true).
  { repeat (apply andb_true_iff; split); apply Z.leb_le; lia. }
  rewrite Hvalid. cbn [negb]. rewrite Hback. unfold msPerDay.
  assert (Htime : day * 86400000 + ms / 3600000 * 3600000
                  + ms / 60000 mod 60 * 60000 + ms / 1000 mod 60 * 1000
                  + ms mod 1000 = t).
  { pose proof (Z.div_mod ms 3600000 ltac:(lia)).
    pose proof (Z.div_mod ms 60000 ltac:(lia)).
    pose proof (Z.div_mod ms 1000 ltac:(lia)).
    pose proof (Z.div_mod (ms / 60000) 60 ltac:(lia)).
    pose proof (Z.div_mod (ms / 1000) 60 ltac:(lia)).
    assert (ms / 60000 / 60 = ms / 3600000) by (by rewrite Z.div_div by lia).
    assert (ms / 1000 / 60 = ms / 60000) by (by rewrite Z.div_div by lia).
    lia. }
  rewrite Htime.
  destruct (Z.leb_spec (Z.abs t) 8640000000000000); [done | lia].
Qed.

End DateRoundTrip.

(** ** Running a handler by cases *)

Ltac step_send :=
  match goal with
  | |- context [docClient_send ?c ?w] =>
      destruct (docClient_send_cases c w) as [-> | ->]
  end.

Ltac run_handler :=
  unfold try_catch, bind, ret, throw, new_Date_toISOString, generateId,
    Date_now, Math_random_suffix, bind, ret;
  repeat first
    [ step_send
    | progress cbn [execute fst snd]
    | match goal with
      | |- context [match key_of ?k with _ => _ end] => destruct (key_of k)
      | |- context [match Item ?r with _ => _ end] => destruct (Item r)
      | |- context [match resolve_sets ?a ?b ?c with _ => _ end] =>
          destruct (resolve_sets a b c)
      | |- context [match ?x ≫= key_of with _ => _ end] => destruct (x ≫= key_of)
      | |- context [if ?b then _ else _] => destruct b
      | |- context [match ?o !! ?k with _ => _ end] => destruct (o !! k)
      end ].

Ltac envelope_leaf :=
  eexists _, _; split; [reflexivity |];
  split; [reflexivity | first [discriminate | intros _; eexists; reflexivity]].

(** ** The envelope of every response *)

Lemma get_tasks_answers req : answers (get_tasks req).
Proof. intros w. unfold get_tasks. run_handler; envelope_leaf. Qed.

Lemma get_task_answers req : answers (get_task req).
Proof. intros w. unfold get_task. run_handler; envelope_leaf. Qed.

Lemma post_tasks_answers req : answers (post_tasks req).
Proof. intros w. unfold post_tasks. run_handler; envelope_leaf. Qed.

Lemma put_task_answers req : answers (put_task req).
Proof. intros w. unfold put_task. run_handler; envelope_leaf. Qed.

Lemma delete_task_answers req : answers (delete_task req).
Proof. intros w. unfold delete_task. run_handler; envelope_leaf. Qed.

Lemma get_dashboard_answers req : answers (get_dashboard req).
Proof. intros w. unfold get_dashboard. run_handler; envelope_leaf. Qed.

Lemma get_boards_answers req : answers (get_boards req).
Proof. intros w. unfold get_boards. run_handler; envelope_leaf. Qed.

Lemma get_health_answers req : answers (get_health req).
Proof. intros w. unfold get_health. run_handler; envelope_leaf. Qed.

Lemma not_found_answers req : answers (not_found req).
Proof. intros w. unfold not_found. run_handler; envelope_leaf. Qed.

(** Every request ends in one of the handlers, or in the error of a
    path parameter that cannot be decoded; the three handlers that
    write are reached by their own method only. *)
Lemma route_cases (h : HttpRequest) (b : item) :
  (∃ req, route h b = get_tasks req ∨ route h b = get_task req ∨
          route h b = get_dashboard req ∨ route h b = get_boards req ∨
          route h b = get_health req ∨ route h b = not_found req) ∨
  route h b = throw "URIError" ∨
  (method h = POST ∧ ∃ req, route h b = post_tasks req) ∨
  (method h = PUT ∧ ∃ req, route h b = put_task req) ∨
  (method h = DELETE ∧ ∃ req, route h b = delete_task req).
Proof.
  unfold route.
  destruct (strip_slash (path h)) as [|piece [|id [|? ?]]];
    try (left; eexists; by eauto 10).
  - destruct (is_piece "tasks" piece).
    + destruct (method h); cbn [routed_method];
        first [ left; eexists; by eauto 10 | right; right; by eauto 10 ].
    + destruct (method h); cbn [routed_method];
        repeat match goal with
               | |- context [if ?c then _ else _] => destruct c
               end.
      all: left; eexists; by eauto 10.
  - destruct (is_piece "tasks" piece && negb (String.eqb id ""));
      [| left; eexists; by eauto 10].
    destruct (decodeURIComponent id) as [id'|]; [| right; by left].
    destruct (method h); cbn [routed_method];
      first [ left; eexists; by eauto 10 | right; right; by eauto 10 ].
Qed.

(** The router answers with an envelope, or passes an error on without
    having done anything. *)
Lemma route_answers (h : HttpRequest) (b : item) (w : World) :
  (∃ r w', route h b w = (Returned r, w') ∧ envelope r) ∨
  route h b w = (Thrown "URIError", w).
Proof.
  destruct (route_cases h b)
    as [[req Hr] | [-> | [[_ [req ->]] | [[_ [req ->]] | [_ [req ->]]]]]].
  - left. destruct Hr as [-> | [-> | [-> | [-> | [-> | ->]]]]];
      first [ apply get_tasks_answers | apply get_task_answers
            | apply get_dashboard_answers | apply get_boards_answers
            | apply get_health_answers | apply not_found_answers ].
  - by right.
  - left. apply post_tasks_answers.
  - left. apply put_task_answers.
  - left. apply delete_task_answers.
Qed.

Lemma error_handler_envelope (e : string) : envelope (error_handler e).
Proof. split; [reflexivity | intros _; eexists; reflexivity]. Qed.

(** The response that is passed to [res.json] has the envelope; it
    comes from the router, or from the error handler when the body did
    not parse or a path parameter did not decode, and then nothing else
    has happened. *)
Lemma handled_cases (h : HttpRequest) (w : World) :
  envelope (handled h w).1 ∧
  ((∃ b, payload h = Some b ∧
         route h b w = (Returned (handled h w).1, (handled h w).2)) ∨
   (handled h w).2 = w ∧ status (handled h w).1 = 500).
Proof.
  unfold handled. destruct (payload h) as [b|].
  - destruct (route_answers h b w) as [(r & w' & E & Henv) | E]; rewrite E.
    + split; [exact Henv | left; by exists b].
    + split; [apply error_handler_envelope | by right].
  - split; [apply error_handler_envelope | by right].
Qed.

Lemma app_given_handled (v : Validators) (h : HttpRequest) (w : World) :
  method h ≠ OPTIONS →
  app_given v h w = (res_send v h (handled h w).1, (handled h w).2).
Proof.
  intros Hm. unfold app_given. destruct (handled h w) as [r w'].
  by destruct (method h).
Qed.

Lemma res_send_no_validators (h : HttpRequest) (r : Response) :
  res_send no_validators h r =
  match method h with HEAD => NoBody (status r) | _ => Body r end.
Proof.
  unfold res_send, fresh, no_validators.
  destruct (method h); by rewrite ?andb_false_r.
Qed.

Lemma app_handled (h : HttpRequest) (w : World) :
  method h ≠ OPTIONS →
  app h w = (match method h with
             | HEAD => NoBody (status (handled h w).1)
             | _ => Body (handled h w).1
             end, (handled h w).2).
Proof.
  intros Hm. unfold app.
  by rewrite app_given_handled, res_send_no_validators.
Qed.




(** ** PUT /tasks/:id *)

(** An update that passes the checks merges the patch into the stored
    item and answers with the merged item. *)
Lemma put_task_updates (req : Request) (w : World) (id : string) (old : item) :
  params req !! "id" = Some id →
  task_store w !! id = Some old →
  store_up 2 w →
  truthy (field req "status") = false ∨
    includes validStatuses (field req "status") = true →
  put_task req w =
    (Returned (res_json (object [("success", JBool true);
         ("task", JObj (patch req (toISOString (clock_now w)) old))])),
     set_table TASKS_TABLE
       (<[id := patch req (toISOString (clock_now w)) old]> (task_store w))
       (next_call (tick (next_call w)))).
Proof.
  intros Hid Hold Hup Hst. unfold put_task. unfold field in Hst.
  rewrite (param_id _ _ Hid).
  unfold try_catch, bind, ret, new_Date_toISOString, Date_now, bind, ret.
  rewrite docClient_send_up by (by eapply store_up_1).
  rewrite execute_get_task. cbn [Item next_call task_store]. rewrite Hold.
  apply store_up_next in Hup.
  unfold patch, field.
  destruct (truthy (attr (body req) "title")) eqn:Ht;
  destruct (defined (attr (body req) "description")) eqn:Hd;
  destruct (truthy (attr (body req) "status")) eqn:Hs;
  try (destruct Hst as [Hst | Hst]; [discriminate | rewrite Hst]);
  cbn [negb]; cbv beta iota zeta;
  rewrite docClient_send_up by done;
  cbn [execute key_of resolve_sets app resolve_name mbind option_bind];
  unfold object; cbn [list_to_map foldr fst snd].
  all: simpl (_ ++ _); cbn [resolve_sets resolve_name mbind option_bind].
  all: repeat (rewrite ?lookup_insert_eq, ?lookup_singleton_eq;
               rewrite ?lookup_insert_ne by done; cbn [mbind option_bind]).
  all: cbn [table next_call tick task_store]; rewrite Hold.
  all: reflexivity.
Qed.

Lemma put_task_not_found (req : Request) (w : World) (id : string) :
  params req !! "id" = Some id →
  task_store w !! id = None →
  store_up 1 w →
  put_task req w =
    (Returned (res_status_json 404 (failure "Task not found")), next_call w).
Proof.
  intros Hid Hnone Hup. unfold put_task. rewrite (param_id _ _ Hid).
  unfold try_catch, bind, ret.
  rewrite docClient_send_up by done.
  rewrite execute_get_task. cbn [Item next_call task_store]. by rewrite Hnone.
Qed.

Lemma put_task_invalid_status (req : Request) (w : World) (id : string) :
  params req !! "id" = Some id →
  is_Some (task_store w !! id) →
  store_up 1 w →
  truthy (field req "status") = true →
  includes validStatuses (field req "status") = false →
  put_task req w =
    (Returned (res_status_json 400 (failure invalid_status_message)),
     tick (next_call w)).
Proof.
  intros Hid [old Hold] Hup Hs Hinv. unfold put_task. unfold field in *.
  rewrite (param_id _ _ Hid).
  unfold try_catch, bind, ret, new_Date_toISOString, Date_now, bind, ret.
  rewrite docClient_send_up by done.
  rewrite execute_get_task. cbn [Item next_call task_store]. rewrite Hold.
  rewrite Hs, Hinv.
  destruct (truthy (attr (body req) "title"));
    destruct (defined (attr (body req) "description")); reflexivity.
Qed.

(** Only [title], [description] and [status] of the body are read, and
    [title] only when it is truthy. *)
Lemma put_task_ext (req req' : Request) (w : World) :
  params req = params req' →
  field req "description" = field req' "description" →
  field req "status" = field req' "status" →
  truthy (field req "title") = false →
  truthy (field req' "title") = false →
  put_task req w = put_task req' w.
Proof.
  unfold field, put_task, param. intros -> -> -> -> ->. reflexivity.
Qed.

Lemma patch_frame (req : Request) (now : string) (old : item) (k : string) :
  k ≠ "updatedAt" → k ≠ "title" → k ≠ "description" → k ≠ "status" →
  patch req now old !! k = old !! k.
Proof.
  intros. unfold patch.
  repeat (case_match; rewrite ?lookup_insert_ne by done); done.
Qed.

(** C2, as amended.  On an existing task, a PUT whose body holds
    nothing but [description] writes back the stored item with
    [description] set to the supplied value (also when that is the empty
    string; the item keeps its description when the field is absent) and
    [updatedAt] set to the time of the clock reading made during the
    update; every other attribute, among them [title], [status],
    [boardId], [id] and [createdAt], is as before. *)
Theorem put_description_only (req : Request) (w : World) (id : string) (old : item) :
  params req !! "id" = Some id →
  task_store w !! id = Some old →
  store_up 2 w →
  (∀ k, k ≠ "description" → body req !! k = None) →
  ∃ new w',
    put_task req w =
      (Returned (res_json (object [("success", JBool true); ("task", JObj new)])),
       w') ∧
    task_store w' = <[id := new]> (task_store w) ∧
    board_store w' = board_store w ∧
    (∀ k, k ≠ "description" → k ≠ "updatedAt" → new !! k = old !! k) ∧
    (∀ d, body req !! "description" = Some d → defined d = true →
          new !! "description" = Some d) ∧
    (body req !! "description" = None →
          new !! "description" = old !! "description") ∧
    new !! "updatedAt" = Some (JStr (toISOString (clock_now w))) ∧
    (∀ t0, updated old = Some t0 →
           (Z.abs (clock_now w) ≤ 8640000000000000)%Z →
           later_than (attr new "updatedAt") (attr old "updatedAt")
             = bool_decide (t0 < clock_now w)%Z).
Proof.
  intros Hid Hold Hup Honly.
  assert (Ht : field req "title" = JUndefined)
    by (unfold field, attr; by rewrite Honly).
  assert (Hs : field req "status" = JUndefined)
    by (unfold field, attr; by rewrite Honly).
  eexists _, _. split.
  { apply (put_task_updates req w id old Hid Hold Hup). left. by rewrite Hs. }
  unfold patch. rewrite Ht, Hs. cbn [truthy].
  repeat split.
  - intros k Hk1 Hk2. case_match; by rewrite ?lookup_insert_ne by done.
  - intros d Hd Hdef. unfold field, attr. rewrite Hd. simpl.
    rewrite Hdef. by rewrite lookup_insert_eq.
  - intros Hd. unfold field, attr. rewrite Hd. simpl.
    by rewrite lookup_insert_ne.
  - case_match; [rewrite lookup_insert_ne by done |]; by rewrite lookup_insert_eq.
  - intros t0 Hold0 Hrange. unfold later_than, attr.
    assert ((if defined (field req "description")
             then <["description" := field req "description"]>
                    (<["updatedAt" := JStr (toISOString (clock_now w))]> old)
             else <["updatedAt" := JStr (toISOString (clock_now w))]> old)
            !! "updatedAt" = Some (JStr (toISOString (clock_now w)))) as ->.
    { case_match; [rewrite lookup_insert_ne by done |];
        by rewrite lookup_insert_eq. }
    unfold updated, attr in Hold0. cbn [default from_option Datatypes.id Date_value].
    rewrite Date_parse_toISOString by done. rewrite Hold0.
    destruct (Z.ltb_spec t0 (clock_now w));
      [by rewrite bool_decide_eq_true_2 | rewrite bool_decide_eq_false_2; [done | lia]].
Qed.

Lemma put_description_only_witness :
  ∃ new w',
    put_task (on_task "t1" [("description", JStr "")]) world_t1_later =
      (Returned (res_json (object [("success", JBool true); ("task", JObj new)])),
       w') ∧
    task_store w' = <["t1" := new]> (task_store world_t1_later) ∧
    board_store w' = board_store world_t1_later ∧
    (∀ k, k ≠ "description" → k ≠ "updatedAt" → new !! k = task_t1 !! k) ∧
    (∀ d, body (on_task "t1" [("description", JStr "")]) !! "description" = Some d →
          defined d = true → new !! "description" = Some d) ∧
    (body (on_task "t1" [("description", JStr "")]) !! "description" = None →
          new !! "description" = task_t1 !! "description") ∧
    new !! "updatedAt" = Some (JStr (toISOString (clock_now world_t1_later))) ∧
    (∀ t0, updated task_t1 = Some t0 →
           (Z.abs (clock_now world_t1_later) ≤ 8640000000000000)%Z →
           later_than (attr new "updatedAt") (attr task_t1 "updatedAt")
             = bool_decide (t0 < clock_now world_t1_later)%Z).
Proof.
  apply (put_description_only (on_task "t1" [("description", JStr "")])
           world_t1_later "t1" task_t1).
  - reflexivity.
  - reflexivity.
  - by apply store_up_none.
  - intros k Hk. unfold on_task, object; simpl. by rewrite lookup_insert_ne.
Defined.

(** C2 as stated fails: an update in the millisecond of the task's last
    write leaves [updatedAt] as it was, not strictly later. *)
Lemma put_updatedAt_not_later :
  ∃ old new r w',
    task_store world_t1 !! "t1" = Some old ∧
    put_task (on_task "t1" [("description", JStr "details")]) world_t1
      = (Returned r, w') ∧
    status r = 200 ∧
    task_store w' !! "t1" = Some new ∧
    attr new "description" = JStr "details" ∧
    attr new "updatedAt" = attr old "updatedAt" ∧
    later_than (attr new "updatedAt") (attr old "updatedAt") = false.
Proof.
  eexists _, _, _, _. repeat split; vm_compute; reflexivity.
Qed.

(** C6, as amended.  A PUT on an id that the task table does not hold
    answers 404 and writes nothing; a PUT on an existing task whose body
    carries a truthy [status] outside todo, in-progress and done answers
    400 and leaves both tables as they were, [updatedAt] included; a
    falsy [status] (missing, empty, null, 0, false) counts as absent:
    the update goes through, the stored status stays and [updatedAt] is
    written. *)
Theorem put_task_rejections (req : Request) (w : World) (id : string) :
  params req !! "id" = Some id →
  store_up 1 w →
  (task_store w !! id = None →
     ∃ w', put_task req w =
             (Returned (res_status_json 404 (failure "Task not found")), w') ∧
           task_store w' = task_store w ∧ board_store w' = board_store w) ∧
  (is_Some (task_store w !! id) →
   truthy (field req "status") = true →
   includes validStatuses (field req "status") = false →
     ∃ w', put_task req w =
             (Returned (res_status_json 400 (failure invalid_status_message)), w') ∧
           task_store w' = task_store w ∧ board_store w' = board_store w) ∧
  (∀ old, task_store w !! id = Some old →
   truthy (field req "status") = false →
   store_up 2 w →
     ∃ new w',
       put_task req w = (Returned (task_answer 200 new), w') ∧
       new = patch req (toISOString (clock_now w)) old ∧
       task_store w' = <[id := new]> (task_store w) ∧
       attr new "status" = attr old "status" ∧
       attr new "updatedAt" = JStr (toISOString (clock_now w))).
Proof.
  intros Hid Hup. split; [| split].
  - intros Hnone. eexists. split; [by apply (put_task_not_found req w id) | done].
  - intros Hsome Hs Hinv. eexists.
    split; [by apply (put_task_invalid_status req w id) | done].
  - intros old Hold Hs Hup2. eexists _, _.
    split; [apply (put_task_updates req w id old); auto |].
    split; [reflexivity |]. split; [reflexivity |].
    unfold patch, attr. rewrite Hs.
    split; repeat case_match;
      repeat first [ rewrite lookup_insert_eq
                   | rewrite lookup_insert_ne by done ]; done.
Qed.

Lemma put_task_rejections_witness :
  (∃ w', put_task (on_task "t2" [("status", JStr "done")]) world_t1 =
           (Returned (res_status_json 404 (failure "Task not found")), w') ∧
         task_store w' = task_store world_t1 ∧
         board_store w' = board_store world_t1) ∧
  (∃ w', put_task (on_task "t1" [("status", JStr "archived")]) world_t1_later =
           (Returned (res_status_json 400 (failure invalid_status_message)), w') ∧
         task_store w' = task_store world_t1_later ∧
         board_store w' = board_store world_t1_later) ∧
  (∃ new w',
     put_task put_t1_false_status world_t1_later
       = (Returned (task_answer 200 new), w') ∧
     new = patch put_t1_false_status (toISOString (clock_now world_t1_later))
             task_t1 ∧
     task_store w' = <["t1" := new]> (task_store world_t1_later) ∧
     attr new "status" = attr task_t1 "status" ∧
     attr new "updatedAt" = JStr (toISOString (clock_now world_t1_later))).
Proof.
  split; [| split].
  - apply (put_task_rejections (on_task "t2" [("status", JStr "done")])
             world_t1 "t2"); [reflexivity | by apply store_up_none | reflexivity].
  - apply (put_task_rejections (on_task "t1" [("status", JStr "archived")])
             world_t1_later "t1").
    + reflexivity.
    + by apply store_up_none.
    + exists task_t1. reflexivity.
    + reflexivity.
    + reflexivity.
  - apply (put_task_rejections put_t1_false_status world_t1_later "t1").
    + reflexivity.
    + by apply store_up_none.
    + reflexivity.
    + reflexivity.
    + by apply store_up_none.
Defined.

(** C6 as stated fails: the empty string is a status outside the three
    values, yet a PUT that carries it is answered 200 and the stored
    task is written back with a new [updatedAt]. *)
Lemma put_empty_status_accepted :
  ∃ old new r w',
    includes validStatuses (field (on_task "t1" [("status", JStr "")]) "status")
      = false ∧
    task_store world_t1_later !! "t1" = Some old ∧
    put_task (on_task "t1" [("status", JStr "")]) world_t1_later = (Returned r, w') ∧
    status r = 200 ∧
    task_store w' !! "t1" = Some new ∧
    attr old "updatedAt" = JStr "2024-10-27T03:33:20.000Z" ∧
    attr new "updatedAt" = JStr "2024-10-27T03:34:20.000Z" ∧
    attr new "status" = JStr "todo".
Proof.
  eexists _, _, _, _. repeat split; vm_compute; reflexivity.
Qed.

(** C9.  On PUT /tasks/:id a [title] that is the empty string is
    treated as an absent [title]: the handler does exactly what it does
    for the same request without the field; on an existing task (and a
    [status] that is absent, empty or valid) it answers 200, the stored
    title is as before and [updatedAt] is refreshed.  An empty
    [description], unlike that, is written: the stored description
    becomes the empty string. *)
Theorem put_empty_title_ignored (req : Request) (w : World) :
  body req !! "title" = Some (JStr "") →
  put_task req w =
    put_task {| params := params req; query := query req;
                body := delete "title" (body req) |} w ∧
  (∀ id old,
     params req !! "id" = Some id →
     task_store w !! id = Some old →
     store_up 2 w →
     truthy (field req "status") = false ∨
       includes validStatuses (field req "status") = true →
     ∃ new w',
       put_task req w =
         (Returned (res_json (object [("success", JBool true); ("task", JObj new)])),
          w') ∧
       task_store w' = <[id := new]> (task_store w) ∧
       new !! "title" = old !! "title" ∧
       new !! "updatedAt" = Some (JStr (toISOString (clock_now w))) ∧
       (body req !! "description" = Some (JStr "") →
          new !! "description" = Some (JStr ""))).
Proof.
  intros Htitle.
  assert (Ht : field req "title" = JStr "")
    by (unfold field, attr; by rewrite Htitle).
  split.
  - apply put_task_ext; try done.
    + unfold field, attr; simpl. by rewrite lookup_delete_ne.
    + unfold field, attr; simpl. by rewrite lookup_delete_ne.
    + by rewrite Ht.
    + unfold field, attr; simpl. by rewrite lookup_delete_eq.
  - intros id old Hid Hold Hup Hst. eexists _, _. split.
    { by apply (put_task_updates req w id old). }
    split; [done |]. unfold patch. rewrite Ht. cbn [truthy String.eqb negb].
    repeat split.
    + repeat (case_match; rewrite ?lookup_insert_ne by done); done.
    + repeat (case_match; rewrite ?lookup_insert_ne by done);
        by rewrite lookup_insert_eq.
    + intros Hd. unfold field, attr. rewrite Hd. simpl.
      case_match; [by rewrite lookup_insert_ne, lookup_insert_eq |].
      by rewrite lookup_insert_eq.
Qed.

Lemma put_empty_title_ignored_witness :
  put_task (on_task "t1" [("title", JStr ""); ("description", JStr "")])
      world_t1_later =
    put_task {| params := {[ "id" := "t1" ]}; query := ∅;
                body := delete "title"
                          (object [("title", JStr ""); ("description", JStr "")]) |}
      world_t1_later ∧
  ∃ new w',
    put_task (on_task "t1" [("title", JStr ""); ("description", JStr "")])
        world_t1_later =
      (Returned (res_json (object [("success", JBool true); ("task", JObj new)])),
       w') ∧
    task_store w' = <["t1" := new]> (task_store world_t1_later) ∧
    new !! "title" = task_t1 !! "title" ∧
    new !! "updatedAt" = Some (JStr (toISOString (clock_now world_t1_later))) ∧
    new !! "description" = Some (JStr "").
Proof.
  destruct (put_empty_title_ignored
              (on_task "t1" [("title", JStr ""); ("description", JStr "")])
              world_t1_later eq_refl) as [Hsame Hrun].
  split; [exact Hsame |].
  destruct (Hrun "t1" task_t1 eq_refl eq_refl
              ltac:(by apply store_up_none)
              (or_introl eq_refl))
    as (new & w' & Hput & Hstore & Htitle & Hupd & Hdesc).
  exists new, w'.
  exact (conj Hput (conj Hstore (conj Htitle (conj Hupd (Hdesc eq_refl))))).
Defined.

(** ** POST /tasks, continued *)

(** A request that passes the four checks creates the item and answers
    201 with it. *)
Lemma post_tasks_created (req : Request) (w : World) (b : string) :
  truthy (field req "title") = true →
  field req "boardId" = JStr b → b ≠ "" →
  is_Some (board_store w !! b) →
  includes validStatuses (js_or (field req "status") (JStr "todo")) = true →
  store_up 2 w →
  let task := new_task req (next_id w) (toISOString (reading 1 w))
                (toISOString (reading 2 w)) in
  post_tasks req w =
    (Returned (res_status_json 201
                 (object [("success", JBool true); ("task", JObj task)])),
     set_table TASKS_TABLE (<[next_id w := task]> (task_store w))
       (next_call (tick (tick (draw (tick (next_call w))))))).
Proof.
  intros Ht Hb Hne [board Hboard] Hst Hup task. subst task.
  unfold post_tasks, new_task. unfold field in *. rewrite Ht, Hb.
  assert (truthy (JStr b) = true) as ->.
  { simpl. apply negb_true_iff, String.eqb_neq. done. }
  unfold try_catch, bind, ret, generateId, new_Date_toISOString, Date_now,
    Math_random_suffix, bind, ret.
  cbn [negb]. rewrite docClient_send_up by (by eapply store_up_1).
  rewrite execute_get_board. cbn [Item next_call board_store]. rewrite Hboard.
  rewrite Hst. cbn [negb]. cbv beta iota zeta.
  apply store_up_next in Hup.
  rewrite docClient_send_up by done.
  cbn [execute]. unfold object at 1. cbn [list_to_map foldr fst snd].
  rewrite lookup_insert_eq. cbn [mbind option_bind key_of].
  reflexivity.
Qed.

(** Of the body only [title], [boardId], [description] and the
    effective status are read. *)
Lemma post_tasks_ext (req req' : Request) (w : World) :
  field req "title" = field req' "title" →
  field req "boardId" = field req' "boardId" →
  field req "description" = field req' "description" →
  js_or (field req "status") (JStr "todo") =
    js_or (field req' "status") (JStr "todo") →
  post_tasks req w = post_tasks req' w.
Proof.
  unfold field, post_tasks. intros -> -> -> ->. reflexivity.
Qed.

(** C4, as amended.  When POST /tasks answers 201, the body of the
    answer holds exactly the item that was written to the task table,
    under its generated id; the status of that item is the supplied
    status when that is truthy, and todo when status is omitted or
    otherwise falsy (empty, null, 0, false); its description is the
    supplied description when that is truthy, and the empty string when
    it is omitted or otherwise falsy. *)
Theorem post_tasks_created_item
    (req : Request) (w : World) (r : Response) (w' : World) :
  post_tasks req w = (Returned r, w') →
  status r = 201 →
  ∃ id createdAt updatedAt,
    let task := new_task req id createdAt updatedAt in
    json r = object [("success", JBool true); ("task", JObj task)] ∧
    task_store w' = <[id := task]> (task_store w) ∧
    board_store w' = board_store w ∧
    attr task "status" =
      (if truthy (field req "status") then field req "status" else JStr "todo") ∧
    includes validStatuses (attr task "status") = true ∧
    attr task "description" =
      (if truthy (field req "description") then field req "description"
       else JStr "").
Proof.
  unfold post_tasks, field.
  unfold try_catch, bind, ret, generateId, new_Date_toISOString, Date_now,
    Math_random_suffix, bind, ret.
  destruct (truthy (attr (body req) "title")) eqn:Ht; cbn [negb];
    [| intros [= <- <-]; discriminate].
  destruct (truthy (attr (body req) "boardId")) eqn:Hb; cbn [negb];
    [| intros [= <- <-]; discriminate].
  destruct (docClient_send_cases
              (GetCommand BOARDS_TABLE (attr (body req) "boardId")) w)
    as [-> | ->]; [intros [= <- <-]; discriminate |].
  cbn [execute]. destruct (key_of (attr (body req) "boardId")) as [b|];
    [| intros [= <- <-]; discriminate].
  cbn [Item]. destruct (table BOARDS_TABLE (next_call w) !! b);
    [| intros [= <- <-]; discriminate].
  destruct (includes validStatuses
              (js_or (attr (body req) "status") (JStr "todo"))) eqn:Hst;
    cbn [negb]; [| intros [= <- <-]; discriminate].
  cbv beta iota zeta.
  match goal with
  | |- context [docClient_send ?c ?w0] =>
      destruct (docClient_send_cases c w0) as [-> | ->]
  end; [intros [= <- <-]; discriminate |].
  cbn [execute]. unfold object at 1. cbn [list_to_map foldr fst snd].
  rewrite lookup_insert_eq. cbn [mbind option_bind key_of].
  intros [= <- <-] _.
  eexists _, _, _. cbv zeta. unfold new_task, field.
  split; [reflexivity |]. split; [reflexivity |]. split; [reflexivity |].
  split; [reflexivity |]. split; [exact Hst | reflexivity].
Qed.

Lemma post_tasks_created_item_witness :
  ∃ id createdAt updatedAt,
    let task := new_task create_T1 id createdAt updatedAt in
    json (response_of (post_tasks create_T1) world_b1) =
      object [("success", JBool true); ("task", JObj task)] ∧
    task_store (world_after (post_tasks create_T1) world_b1) =
      <[id := task]> (task_store world_b1) ∧
    board_store (world_after (post_tasks create_T1) world_b1) =
      board_store world_b1 ∧
    attr task "status" =
      (if truthy (field create_T1 "status") then field create_T1 "status"
       else JStr "todo") ∧
    includes validStatuses (attr task "status") = true ∧
    attr task "description" =
      (if truthy (field create_T1 "description")
       then field create_T1 "description" else JStr "").
Proof.
  apply (post_tasks_created_item create_T1 world_b1).
  - vm_compute. reflexivity.
  - vm_compute. reflexivity.
Defined.

(** C4 as stated fails: with an empty [status] in the body the created
    task has the status todo, not the supplied one; and [createdAt] and
    [updatedAt] come from two readings of the clock, which differ when
    the clock moves on between them. *)
Lemma post_tasks_created_differs :
  ∃ r w' task,
    post_tasks create_T1_empty_status world_b1_ticking = (Returned r, w') ∧
    status r = 201 ∧
    json r !! "task" = Some (JObj task) ∧
    body create_T1_empty_status !! "status" = Some (JStr "") ∧
    attr task "status" = JStr "todo" ∧
    attr task "createdAt" = JStr "2024-10-27T03:33:20.000Z" ∧
    attr task "updatedAt" = JStr "2024-10-27T03:33:20.001Z".
Proof.
  eexists _, _, _. repeat split; vm_compute; reflexivity.
Qed.

(** C10.  A POST /tasks whose [status] is the empty string (with a
    title, the id of an existing board, and a store that answers) is
    handled exactly as the same request without [status]: the answer is
    201 with the task that the handler builds from the request, which
    is written to the table under its generated id and has the status
    todo, the title, the board and the description of the request. *)
Theorem post_empty_status_defaults (req : Request) (w : World) (b : string) :
  body req !! "status" = Some (JStr "") →
  truthy (field req "title") = true →
  field req "boardId" = JStr b → b ≠ "" →
  is_Some (board_store w !! b) →
  store_up 2 w →
  post_tasks req w =
    post_tasks {| params := params req; query := query req;
                  body := delete "status" (body req) |} w ∧
  (∃ w',
     post_tasks req w = (Returned (task_answer 201 (created req w)), w') ∧
     task_store w' = <[next_id w := created req w]> (task_store w) ∧
     board_store w' = board_store w) ∧
  attr (created req w) "status" = JStr "todo" ∧
  attr (created req w) "title" = field req "title" ∧
  attr (created req w) "boardId" = JStr b ∧
  attr (created req w) "description"
    = js_or (field req "description") (JStr "") ∧
  attr (created req w) "id" = JStr (next_id w).
Proof.
  intros Hstatus Ht Hb Hne Hboard Hup.
  assert (Hs : field req "status" = JStr "")
    by (unfold field, attr; by rewrite Hstatus).
  split; [| split].
  - apply post_tasks_ext; unfold field, attr; simpl;
      rewrite ?lookup_delete_ne by done; try done.
    rewrite Hstatus, lookup_delete_eq. reflexivity.
  - eexists. split.
    + apply (post_tasks_created req w b); try done. by rewrite Hs.
    + split; reflexivity.
  - unfold created, new_task. rewrite Hs, Hb. repeat split.
Qed.

Lemma post_empty_status_defaults_witness :
  post_tasks create_T1_empty_status world_b1 =
    post_tasks {| params := ∅; query := ∅;
                  body := delete "status" (body create_T1_empty_status) |}
      world_b1 ∧
  (∃ w',
     post_tasks create_T1_empty_status world_b1
       = (Returned (task_answer 201 (created create_T1_empty_status world_b1)),
          w') ∧
     task_store w' =
       <[next_id world_b1 := created create_T1_empty_status world_b1]>
         (task_store world_b1) ∧
     board_store w' = board_store world_b1) ∧
  attr (created create_T1_empty_status world_b1) "status" = JStr "todo" ∧
  attr (created create_T1_empty_status world_b1) "title"
    = field create_T1_empty_status "title" ∧
  attr (created create_T1_empty_status world_b1) "boardId" = JStr "b1" ∧
  attr (created create_T1_empty_status world_b1) "description"
    = js_or (field create_T1_empty_status "description") (JStr "") ∧
  attr (created create_T1_empty_status world_b1) "id"
    = JStr (next_id world_b1).
Proof.
  apply (post_empty_status_defaults create_T1_empty_status world_b1 "b1").
  - reflexivity.
  - reflexivity.
  - reflexivity.
  - discriminate.
  - exists board_b1. reflexivity.
  - by apply store_up_none.
Defined.

(** C1, as amended.  POST /tasks checks in this order and stops at the
    first check that fails, before anything is written: a falsy title
    (missing, empty, null, 0, false) is answered 400; then a falsy
    boardId is answered 400; then the board is looked up and its absence
    is answered 404; then a truthy status other than todo, in-progress
    and done is answered 400, while a falsy status is not rejected: it
    is replaced by todo and the task is created.  Whenever the answer
    is not 201 the two tables are as they were. *)
Theorem post_tasks_validation_order (req : Request) (w : World) :
  (truthy (field req "title") = false →
     post_tasks req w =
       (Returned (res_status_json 400 (failure "Title is required")), w)) ∧
  (truthy (field req "title") = true → truthy (field req "boardId") = false →
     post_tasks req w =
       (Returned (res_status_json 400 (failure "Board ID is required")), w)) ∧
  (∀ b, truthy (field req "title") = true → truthy (field req "boardId") = true →
     field req "boardId" = JStr b → store_up 1 w →
     (board_store w !! b = None →
        post_tasks req w =
          (Returned (res_status_json 404 (failure "Board not found")),
           next_call w)) ∧
     (is_Some (board_store w !! b) → truthy (field req "status") = true →
      includes validStatuses (field req "status") = false →
        post_tasks req w =
          (Returned (res_status_json 400 (failure invalid_status_message)),
           next_call w)) ∧
     (is_Some (board_store w !! b) → truthy (field req "status") = false →
      store_up 2 w →
        ∃ w', post_tasks req w =
                (Returned (task_answer 201 (created req w)), w') ∧
              task_store w' = <[next_id w := created req w]> (task_store w) ∧
              attr (created req w) "status" = JStr "todo")) ∧
  (∀ r w', post_tasks req w = (Returned r, w') → status r ≠ 201 →
     task_store w' = task_store w ∧ board_store w' = board_store w).
Proof.
  split; [| split; [| split]].
  - unfold field, post_tasks. intros ->. reflexivity.
  - unfold field, post_tasks. intros -> ->. reflexivity.
  - intros b Ht Hb Hid Hup. split; [| split].
    + intros Hnone. unfold field in *. unfold post_tasks. rewrite Ht, Hb, Hid.
      unfold try_catch, bind; simpl.
      rewrite docClient_send_up by done. rewrite execute_get_board. simpl.
      by rewrite Hnone.
    + intros [x Hsome] Hs Hinv. unfold field in *. unfold post_tasks.
      rewrite Ht, Hb, Hid. unfold try_catch, bind; simpl.
      rewrite docClient_send_up by done. rewrite execute_get_board. simpl.
      rewrite Hsome. unfold js_or. by rewrite Hs, Hinv.
    + intros Hsome Hs Hup2.
      assert (Hor : js_or (field req "status") (JStr "todo") = JStr "todo")
        by (unfold js_or; by rewrite Hs).
      assert (Hne : b ≠ "").
      { intros ->. rewrite Hid in Hb. discriminate. }
      eexists. split; [| split].
      * apply (post_tasks_created req w b); try done. by rewrite Hor.
      * reflexivity.
      * unfold created, new_task. rewrite Hor. reflexivity.
  - unfold field, post_tasks. intros r w'.
    run_handler; intros [= <- <-]; simpl; try done.
Qed.

(** C1 as stated fails: the empty string is not a valid status, yet a
    POST that carries it is answered 201 and the task is written. *)
Lemma post_empty_status_created :
  ∃ r w' task,
    includes validStatuses (field create_T1_empty_status "status") = false ∧
    post_tasks create_T1_empty_status world_b1 = (Returned r, w') ∧
    status r = 201 ∧
    task_store world_b1 !! "1730000000000k3j9x0a2q" = None ∧
    task_store w' !! "1730000000000k3j9x0a2q" = Some task ∧
    attr task "status" = JStr "todo".
Proof.
  eexists _, _, _. repeat split; vm_compute; reflexivity.
Qed.

Lemma post_tasks_validation_order_witness :
  post_tasks (with_body [("boardId", JStr "b1")]) world_b1 =
    (Returned (res_status_json 400 (failure "Title is required")), world_b1) ∧
  post_tasks (with_body [("title", JStr "T1")]) world_b1 =
    (Returned (res_status_json 400 (failure "Board ID is required")), world_b1) ∧
  post_tasks (with_body [("title", JStr "T1"); ("boardId", JStr "b2")]) world_b1 =
    (Returned (res_status_json 404 (failure "Board not found")),
     next_call world_b1) ∧
  post_tasks (with_body [("title", JStr "T1"); ("boardId", JStr "b1");
                         ("status", JStr "archived")]) world_b1 =
    (Returned (res_status_json 400 (failure invalid_status_message)),
     next_call world_b1) ∧
  ∃ w', post_tasks create_T1_zero_status world_b1 =
          (Returned (task_answer 201 (created create_T1_zero_status world_b1)),
           w') ∧
        task_store w' =
          <[next_id world_b1 := created create_T1_zero_status world_b1]>
            (task_store world_b1) ∧
        attr (created create_T1_zero_status world_b1) "status" = JStr "todo".
Proof.
  split; [| split; [| split; [| split]]].
  - apply (post_tasks_validation_order (with_body [("boardId", JStr "b1")])
             world_b1). reflexivity.
  - apply (post_tasks_validation_order (with_body [("title", JStr "T1")])
             world_b1); reflexivity.
  - apply (post_tasks_validation_order
             (with_body [("title", JStr "T1"); ("boardId", JStr "b2")])
             world_b1) with (b := "b2"); try reflexivity.
    by apply store_up_none.
  - apply (post_tasks_validation_order
             (with_body [("title", JStr "T1"); ("boardId", JStr "b1");
                         ("status", JStr "archived")])
             world_b1) with (b := "b1"); try reflexivity.
    + by apply store_up_none.
    + exists board_b1. reflexivity.
  - apply (post_tasks_validation_order create_T1_zero_status world_b1)
      with (b := "b1"); try reflexivity.
    + by apply store_up_none.
    + exists board_b1. reflexivity.
    + by apply store_up_none.
Defined.

(** ** DELETE /tasks/:id *)

Lemma store_up_le (n m : nat) (w : World) :
  n ≤ m → store_up m w → store_up n w.
Proof.
  unfold store_up. intros Hle H.
  replace (take n (store_faults w)) with (take n (take m (store_faults w))).
  - by apply Forall_take.
  - rewrite take_take. f_equal. lia.
Qed.

Lemma delete_task_deletes (req : Request) (w : World) (id : string) :
  params req !! "id" = Some id →
  is_Some (task_store w !! id) →
  store_up 2 w →
  delete_task req w =
    (Returned (res_json (object [("success", JBool true);
                                 ("message", JStr "Task deleted successfully")])),
     set_table TASKS_TABLE (delete id (task_store w)) (next_call (next_call w))).
Proof.
  intros Hid [old Hold] Hup. unfold delete_task. rewrite (param_id _ _ Hid).
  unfold try_catch, bind, ret.
  rewrite docClient_send_up by (by eapply store_up_1).
  rewrite execute_get_task. cbn [Item next_call task_store]. rewrite Hold.
  apply store_up_next in Hup. rewrite docClient_send_up by done.
  reflexivity.
Qed.

Lemma delete_task_not_found (req : Request) (w : World) (id : string) :
  params req !! "id" = Some id →
  task_store w !! id = None →
  store_up 1 w →
  delete_task req w =
    (Returned (res_status_json 404 (failure "Task not found")), next_call w).
Proof.
  intros Hid Hnone Hup. unfold delete_task. rewrite (param_id _ _ Hid).
  unfold try_catch, bind, ret.
  rewrite docClient_send_up by done.
  rewrite execute_get_task. cbn [Item next_call task_store]. by rewrite Hnone.
Qed.

(** C7.  Deleting an existing task twice in a row: the first call
    answers 200 with a success message and the task is gone from the
    table; the second call answers 404 and leaves the tables as the
    first call left them. *)
Theorem delete_task_twice (req : Request) (w : World) (id : string) :
  params req !! "id" = Some id →
  is_Some (task_store w !! id) →
  store_up 3 w →
  ∃ w1 w2,
    delete_task req w =
      (Returned (res_json (object [("success", JBool true);
                                   ("message", JStr "Task deleted successfully")])),
       w1) ∧
    task_store w1 = delete id (task_store w) ∧
    task_store w1 !! id = None ∧
    delete_task req w1 =
      (Returned (res_status_json 404 (failure "Task not found")), w2) ∧
    task_store w2 = task_store w1 ∧
    board_store w2 = board_store w.
Proof.
  intros Hid Hsome Hup. eexists _, _. split.
  { apply (delete_task_deletes req w id); [done | done |].
    apply (store_up_le 2 3); [lia | done]. }
  split; [reflexivity |]. split; [apply lookup_delete_eq |]. split.
  { apply (delete_task_not_found req _ id); [done | apply lookup_delete_eq |].
    apply store_up_next, store_up_next in Hup. exact Hup. }
  split; reflexivity.
Qed.

Lemma delete_task_twice_witness :
  ∃ w1 w2,
    delete_task (on_task "t1" []) world_t1 =
      (Returned (res_json (object [("success", JBool true);
                                   ("message", JStr "Task deleted successfully")])),
       w1) ∧
    task_store w1 = delete "t1" (task_store world_t1) ∧
    task_store w1 !! "t1" = None ∧
    delete_task (on_task "t1" []) w1 =
      (Returned (res_status_json 404 (failure "Task not found")), w2) ∧
    task_store w2 = task_store w1 ∧
    board_store w2 = board_store world_t1.
Proof.
  apply (delete_task_twice (on_task "t1" []) world_t1 "t1").
  - reflexivity.
  - exists task_t1. reflexivity.
  - by apply store_up_none.
Defined.

(** ** GET /tasks *)

Lemma filter_sublist {A} (f : A → bool) (l : list A) :
  List.filter f l `sublist_of` l.
Proof.
  induction l as [|x l IH]; simpl; [constructor |].
  destruct (f x); by constructor.
Qed.

Lemma with_status_elem (s : string) (tasks : list item) (t : item) :
  t ∈ with_status s tasks ↔ t ∈ tasks ∧ attr t "status" = JStr s.
Proof.
  unfold with_status. rewrite !list_elem_of_In, filter_In, is_str_spec. done.
Qed.

(** The three groups do not overlap, so together they are no longer
    than the list they are taken from. *)
Lemma groups_length (tasks : list item) :
  length (with_status "todo" tasks) + length (with_status "in-progress" tasks)
    + length (with_status "done" tasks) ≤ length tasks.
Proof.
  unfold with_status. induction tasks as [|t tasks IH]; simpl; [lia |].
  destruct (is_str (attr t "status") "todo") eqn:H1;
  destruct (is_str (attr t "status") "in-progress") eqn:H2;
  destruct (is_str (attr t "status") "done") eqn:H3;
  rewrite ?is_str_spec in *; simpl; try lia; congruence.
Qed.

Lemma passes_boardId (b : string) (it : item) :
  passes (Some ("boardId", ":boardId")) (object [(":boardId", JStr b)]) it = true
  ↔ attr it "boardId" = JStr b.
Proof.
  unfold passes, attr.
  replace (object [(":boardId", JStr b)] !! ":boardId") with (Some (JStr b))
    by reflexivity.
  destruct (it !! "boardId") as [[]|]; simpl;
    try (split; [discriminate | congruence]).
  rewrite String.eqb_eq. split; [congruence | by intros [= ->]].
Qed.

(** C3, as amended.  GET /tasks answers with the scanned tasks as flat
    list; each of the three [tasksByStatus] groups holds exactly the
    tasks of the flat list with that status, in the order of the list; a
    task with any other status is in no group but stays in the flat
    list, so the group sizes add up to at most [total]; and when the
    [boardId] query parameter is given and not empty, the flat list
    holds exactly the scanned tasks with that [boardId] (an empty
    [boardId] is no filter: the flat list is the whole scan). *)
Theorem get_tasks_groups (req : Request) (w : World) :
  store_up 1 w →
  ∃ tasks,
    get_tasks req w =
      (Returned (res_json (object
         [("success", JBool true);
          ("tasks", array tasks);
          ("tasksByStatus",
           JObj (object [("todo", array (with_status "todo" tasks));
                         ("in-progress", array (with_status "in-progress" tasks));
                         ("done", array (with_status "done" tasks))]));
          ("total", JNum (number_of_nat (length tasks)));
          ("boardId", js_or (query_param req "boardId") JNull)])),
       next_call w) ∧
    (∀ s t, t ∈ with_status s tasks ↔ t ∈ tasks ∧ attr t "status" = JStr s) ∧
    (∀ s, with_status s tasks `sublist_of` tasks) ∧
    (∀ t, t ∈ tasks → includes validStatuses (attr t "status") = false →
          (t ∉ with_status "todo" tasks) ∧ (t ∉ with_status "in-progress" tasks) ∧
          (t ∉ with_status "done" tasks)) ∧
    length (with_status "todo" tasks) + length (with_status "in-progress" tasks)
      + length (with_status "done" tasks) ≤ length tasks ∧
    tasks `sublist_of` scan (task_store w) ∧
    (∀ b, query req !! "boardId" = Some b → b ≠ "" →
          ∀ t, t ∈ tasks ↔ t ∈ scan (task_store w) ∧ attr t "boardId" = JStr b) ∧
    (query req !! "boardId" = None ∨ query req !! "boardId" = Some "" →
          tasks = scan (task_store w)).
Proof.
  intros Hup. unfold get_tasks, try_catch, bind, ret.
  rewrite docClient_send_up by done.
  destruct (truthy (query_param req "boardId")) eqn:Hq;
    cbn [execute table next_call task_store];
    (eexists; split; [reflexivity |]); cbn [Items];
    (split; [intros; apply with_status_elem |]);
    (split; [intros; apply filter_sublist |]);
    (split; [intros t Ht Hno; rewrite !with_status_elem;
             repeat split; intros [_ Hs]; rewrite Hs in Hno; discriminate |]);
    (split; [apply groups_length |]);
    (split; [apply filter_sublist |]).
  - split.
    + intros b Hb Hne t. unfold query_param. rewrite Hb. simpl.
      rewrite !list_elem_of_In, filter_In, passes_boardId. done.
    + intros Hq'. unfold query_param in Hq.
      destruct Hq' as [E | E]; rewrite E in Hq; discriminate.
  - assert (Hall : List.filter (passes None ∅) (scan (task_store w))
                   = scan (task_store w)).
    { induction (scan _) as [|x l IH]; simpl; [done | by f_equal]. }
    split.
    + intros b Hb Hne. unfold query_param in Hq. rewrite Hb in Hq. simpl in Hq.
      apply negb_false_iff, String.eqb_eq in Hq. done.
    + intros _. exact Hall.
Qed.

Lemma get_tasks_groups_witness :
  ∃ tasks,
    get_tasks (list_of_board "b1") world_t1 =
      (Returned (res_json (object
         [("success", JBool true);
          ("tasks", array tasks);
          ("tasksByStatus",
           JObj (object [("todo", array (with_status "todo" tasks));
                         ("in-progress", array (with_status "in-progress" tasks));
                         ("done", array (with_status "done" tasks))]));
          ("total", JNum (number_of_nat (length tasks)));
          ("boardId", js_or (query_param (list_of_board "b1") "boardId") JNull)])),
       next_call world_t1) ∧
    (∀ s t, t ∈ with_status s tasks ↔ t ∈ tasks ∧ attr t "status" = JStr s) ∧
    (∀ s, with_status s tasks `sublist_of` tasks) ∧
    (∀ t, t ∈ tasks → includes validStatuses (attr t "status") = false →
          (t ∉ with_status "todo" tasks) ∧ (t ∉ with_status "in-progress" tasks) ∧
          (t ∉ with_status "done" tasks)) ∧
    length (with_status "todo" tasks) + length (with_status "in-progress" tasks)
      + length (with_status "done" tasks) ≤ length tasks ∧
    tasks `sublist_of` scan (task_store world_t1) ∧
    (∀ b, query (list_of_board "b1") !! "boardId" = Some b → b ≠ "" →
          ∀ t, t ∈ tasks ↔
               t ∈ scan (task_store world_t1) ∧ attr t "boardId" = JStr b) ∧
    (query (list_of_board "b1") !! "boardId" = None ∨
     query (list_of_board "b1") !! "boardId" = Some "" →
          tasks = scan (task_store world_t1)).
Proof.
  apply (get_tasks_groups (list_of_board "b1") world_t1).
  by apply store_up_none.
Defined.

(** C3 as stated fails: with an empty [boardId] in the query nothing is
    filtered, and the flat list holds a task of board b1. *)
Lemma get_tasks_empty_filter :
  ∃ r w',
    query (list_of_board "") !! "boardId" = Some "" ∧
    get_tasks (list_of_board "") world_t1 = (Returned r, w') ∧
    status r = 200 ∧
    json r !! "tasks" = Some (array [task_t1]) ∧
    json r !! "boardId" = Some JNull ∧
    attr task_t1 "boardId" = JStr "b1".
Proof.
  eexists _, _. repeat split; vm_compute; reflexivity.
Qed.

(** ** GET /dashboard *)

Lemma sort_insert_Permutation {A} (cmp : A → A → option Z) (x : A) (l : list A) :
  sort_insert cmp x l ≡ₚ x :: l.
Proof.
  induction l as [|y l IH]; simpl; [done |].
  destruct (comes_before cmp y x); [| done].
  rewrite IH. apply Permutation_swap.
Qed.

Lemma Array_sort_Permutation {A} (cmp : A → A → option Z) (l : list A) :
  Array_sort cmp l ≡ₚ l.
Proof.
  induction l as [|x l IH]; simpl; [done |].
  rewrite sort_insert_Permutation. by constructor.
Qed.

Lemma comes_before_updated (y x : item) (ty tx : Z) :
  updated y = Some ty → updated x = Some tx →
  comes_before by_updatedAt_desc y x = bool_decide (tx < ty)%Z.
Proof.
  unfold comes_before, by_updatedAt_desc, Date_minus, updated.
  intros -> ->. simpl. destruct (Z.ltb_spec (tx - ty) 0);
    [rewrite bool_decide_eq_true_2 | rewrite bool_decide_eq_false_2]; lia.
Qed.

Lemma sort_insert_sorted (x : item) (l : list item) :
  is_Some (updated x) → Forall (λ t, is_Some (updated t)) l →
  StronglySorted newer_or_same l →
  StronglySorted newer_or_same (sort_insert by_updatedAt_desc x l).
Proof.
  intros [tx Hx] Hvalid Hsorted.
  induction Hsorted as [|y l Hl IH Hy]; simpl.
  - repeat constructor.
  - apply Forall_cons in Hvalid as [[ty Hty] Hvalid].
    rewrite (comes_before_updated y x ty tx) by done.
    case_bool_decide as Hlt.
    + constructor; [by apply IH |].
      rewrite sort_insert_Permutation. constructor; [| done].
      exists ty, tx. repeat split; [done | done | lia].
    + constructor; [by constructor |]. constructor.
      * exists tx, ty. repeat split; [done | done | lia].
      * eapply Forall_impl; [exact Hy |]. simpl.
        intros z (ty' & tz & Hty' & Htz & Hle). exists tx, tz.
        repeat split; [done | done |]. rewrite Hty in Hty'. simplify_eq. lia.
Qed.

Lemma Array_sort_sorted (l : list item) :
  Forall (λ t, is_Some (updated t)) l →
  StronglySorted newer_or_same (Array_sort by_updatedAt_desc l).
Proof.
  induction 1 as [|x l Hx Hl IH]; simpl; [constructor |].
  apply sort_insert_sorted; [done | | done].
  by rewrite Array_sort_Permutation.
Qed.

(** The sort is stable: tasks with the same time value keep the order
    they had in the scan. *)
Lemma sort_insert_stable (x : item) (l : list item) (k : Z) :
  is_Some (updated x) → Forall (λ t, is_Some (updated t)) l →
  StronglySorted newer_or_same l →
  List.filter (λ t, bool_decide (updated t = Some k))
    (sort_insert by_updatedAt_desc x l) =
  List.filter (λ t, bool_decide (updated t = Some k)) (x :: l).
Proof.
  intros [tx Hx] Hvalid Hsorted.
  induction Hsorted as [|y l Hl IH Hy]; [done |].
  apply Forall_cons in Hvalid as [[ty Hty] Hvalid].
  cbn [sort_insert]. rewrite (comes_before_updated y x ty tx) by done.
  case_bool_decide as Hlt; [| done].
  cbn [List.filter]. rewrite (IH Hvalid). cbn [List.filter].
  rewrite Hx, Hty.
  repeat case_bool_decide; simplify_eq; try done; lia.
Qed.

Lemma Array_sort_stable (l : list item) (k : Z) :
  Forall (λ t, is_Some (updated t)) l →
  List.filter (λ t, bool_decide (updated t = Some k))
    (Array_sort by_updatedAt_desc l) =
  List.filter (λ t, bool_decide (updated t = Some k)) l.
Proof.
  induction 1 as [|x l Hx Hl IH]; [done |].
  cbn [Array_sort foldr]. fold (Array_sort by_updatedAt_desc l).
  rewrite sort_insert_stable.
  - cbn [List.filter]. by rewrite IH.
  - done.
  - by rewrite Array_sort_Permutation.
  - by apply Array_sort_sorted.
Qed.

Lemma completionRate_no_task (done : nat) : completionRate done 0 = 0%float.
Proof. reflexivity. Qed.

Lemma time_stamp_updated (t : item) :
  time_stamp (attr t "updatedAt") → is_Some (updated t).
Proof.
  intros (u & Hrange & Hu). exists u. unfold updated. rewrite Hu.
  cbn [Date_value]. by apply Date_parse_toISOString.
Qed.

(** X1.  On a task table whose [updatedAt] values are all time stamps
    as the handlers write them, the dashboard lists the first five
    (fewer when there are fewer tasks) of the scanned tasks sorted by
    [updatedAt], newest first, tasks of equal [updatedAt] in scan order:
    the sorted list is a rearrangement of the scan, descending in the
    time value of [updatedAt], and stable.  With no task the completion
    rate is 0. *)
Theorem dashboard_recentTasks (req : Request) (w : World) :
  store_up 1 w →
  Forall (λ t, time_stamp (attr t "updatedAt")) (scan (task_store w)) →
  ∃ stats sorted,
    get_dashboard req w =
      (Returned (res_json (object [("success", JBool true);
                                   ("stats", JObj stats);
                                   ("recentTasks", array (take 5 sorted))])),
       next_call w) ∧
    sorted ≡ₚ scan (task_store w) ∧
    StronglySorted newer_or_same sorted ∧
    (∀ k, List.filter (λ t, bool_decide (updated t = Some k)) sorted =
          List.filter (λ t, bool_decide (updated t = Some k))
            (scan (task_store w))) ∧
    length (take 5 sorted) = min 5 (length (scan (task_store w))) ∧
    (scan (task_store w) = [] →
       stats !! "completionRate" = Some (JNum 0%float)).
Proof.
  intros Hup Hstamps.
  assert (Hvalid : Forall (λ t, is_Some (updated t)) (scan (task_store w))).
  { eapply Forall_impl; [exact Hstamps |]. apply time_stamp_updated. }
  unfold get_dashboard, try_catch, bind, ret.
  rewrite docClient_send_up by done.
  cbn [execute Items table next_call task_store passes].
  rewrite filter_passes_None.
  eexists _, (Array_sort by_updatedAt_desc (scan (task_store w))).
  split; [reflexivity |].
  split; [apply Array_sort_Permutation |].
  split; [by apply Array_sort_sorted |].
  split; [intros k; by apply Array_sort_stable |].
  split.
  - rewrite length_take. f_equal.
    apply Permutation_length, Array_sort_Permutation.
  - intros ->. reflexivity.
Qed.

Lemma world_40_time_stamps :
  Forall (λ t, time_stamp (attr t "updatedAt")) (scan (task_store world_40)).
Proof.
  apply Forall_forall. intros t Ht. apply elem_of_scan in Ht as [k Hk].
  unfold world_40 in Hk. cbn [set_table task_store] in Hk.
  apply elem_of_list_to_map_2, list_elem_of_fmap in Hk as (n & [= -> ->] & Hn).
  apply elem_of_seq in Hn.
  exists (1729000000000 + Z.of_nat n)%Z. split; [lia |].
  unfold sample_task, attr, object. cbn [list_to_map foldr fst snd].
  rewrite !lookup_insert_ne by done. by rewrite lookup_insert_eq.
Qed.

Lemma dashboard_recentTasks_witness :
  ∃ stats sorted,
    get_dashboard (with_body []) world_40 =
      (Returned (res_json (object [("success", JBool true);
                                   ("stats", JObj stats);
                                   ("recentTasks", array (take 5 sorted))])),
       next_call world_40) ∧
    sorted ≡ₚ scan (task_store world_40) ∧
    StronglySorted newer_or_same sorted ∧
    (∀ k, List.filter (λ t, bool_decide (updated t = Some k)) sorted =
          List.filter (λ t, bool_decide (updated t = Some k))
            (scan (task_store world_40))) ∧
    length (take 5 sorted) = min 5 (length (scan (task_store world_40))) ∧
    (scan (task_store world_40) = [] →
       stats !! "completionRate" = Some (JNum 0%float)).
Proof.
  apply (dashboard_recentTasks (with_body []) world_40).
  - by apply store_up_none.
  - exact world_40_time_stamps.
Defined.

(** X7.  Up to 200 tasks the reported completion rate is 100 times done
    over total rounded to the nearest integer, except where that
    quotient is an exact half: there it may be one less. *)
Theorem completionRate_up_to_200 (done total : nat) :
  done ≤ total → total ≤ 200 → rate_agrees done total = true.
Proof.
  intros Hd Ht.
  assert (Hall : forallb (λ t, forallb (λ d, rate_agrees d t) (seq 0 (S t)))
                   (seq 0 201) = true) by (vm_compute; reflexivity).
  rewrite forallb_forall in Hall.
  specialize (Hall total ltac:(apply in_seq; lia)).
  rewrite forallb_forall in Hall. apply Hall, in_seq. lia.
Qed.

Lemma completionRate_up_to_200_witness :
  rate_agrees 23 40 = true ∧ exact_half 23 40 = true.
Proof.
  split; [apply (completionRate_up_to_200 23 40); lia | reflexivity].
Defined.

(** C5 at forty tasks of which twenty-three are done: the dashboard
    reports the completion rate 57, where 100 times 23 over 40 is 57.5
    and rounds to 58.  The double nearest to 23/40, times 100, is
    57.49999999999999. *)
Theorem dashboard_completionRate_23_of_40 :
  ∃ r w' stats,
    get_dashboard (with_body []) world_40 = (Returned r, w') ∧
    status r = 200 ∧
    json r !! "stats" = Some (JObj stats) ∧
    stats !! "total" = Some (JNum 40%float) ∧
    stats !! "done" = Some (JNum 23%float) ∧
    stats !! "completionRate" = Some (JNum 57%float) ∧
    completionRate 23 40 = 57%float ∧
    (number_of_nat 23 / number_of_nat 40 * 100 <? 57.5)%float = true ∧
    rounded_percentage 23 40 = 58%Z.
Proof.
  eexists _, _, _. repeat split; vm_compute; reflexivity.
Qed.

(** ** Further properties of the handlers *)



(** X3.  GET /tasks/:id is a point lookup: the stored task with 200, or 404
    when the table holds no item under the id; nothing is written. *)
Theorem get_task_lookup (req : Request) (w : World) (id : string) :
  params req !! "id" = Some id →
  store_up 1 w →
  get_task req w =
    (Returned
       match task_store w !! id with
       | Some it => res_json (object [("success", JBool true); ("task", JObj it)])
       | None => res_status_json 404 (failure "Task not found")
       end,
     next_call w).
Proof.
  intros Hid Hup. unfold get_task. rewrite (param_id _ _ Hid).
  unfold try_catch, bind, ret. rewrite docClient_send_up by done.
  rewrite execute_get_task. cbn [Item next_call task_store].
  by destruct (task_store w !! id).
Qed.

Lemma get_task_lookup_witness :
  get_task (on_task "t1" []) world_t1 =
    (Returned
       match task_store world_t1 !! "t1" with
       | Some it => res_json (object [("success", JBool true); ("task", JObj it)])
       | None => res_status_json 404 (failure "Task not found")
       end,
     next_call world_t1).
Proof.
  apply (get_task_lookup (on_task "t1" []) world_t1 "t1");
    [reflexivity | by apply store_up_none].
Defined.


(** X5.  A store call that fails is answered 500 at once, with the message
    of the handler and no write: there is no retry. *)
Theorem store_failure_500 (req : Request) (w : World) :
  hd false (store_faults w) = true →
  get_tasks req w =
    (Returned (res_status_json 500 (failure "Error fetching tasks")), next_call w) ∧
  get_task req w =
    (Returned (res_status_json 500 (failure "Error fetching task")), next_call w) ∧
  (truthy (field req "title") = true → truthy (field req "boardId") = true →
   post_tasks req w =
    (Returned (res_status_json 500 (failure "Error creating task")), next_call w)) ∧
  put_task req w =
    (Returned (res_status_json 500 (failure "Error updating task")), next_call w) ∧
  delete_task req w =
    (Returned (res_status_json 500 (failure "Error deleting task")), next_call w) ∧
  get_dashboard req w =
    (Returned (res_status_json 500 (failure "Error fetching dashboard stats")),
     next_call w) ∧
  get_boards req w =
    (Returned (res_status_json 500 (failure "Error fetching boards")), next_call w).
Proof.
  intros Hfault.
  assert (Hsend : ∀ c, docClient_send c w
                       = (Thrown "ServiceUnavailable", next_call w)).
  { intros c. unfold docClient_send.
    destruct (store_faults w) as [|[] ?]; simpl in Hfault; done. }
  unfold get_tasks, get_task, post_tasks, put_task, delete_task, get_dashboard,
    get_boards, field, try_catch, bind, ret.
  cbv beta. rewrite !Hsend. repeat split.
  intros -> ->. cbn [negb]. cbv beta. by rewrite Hsend.
Qed.

Lemma store_failure_500_witness :
  put_task (on_task "t1" [("status", JStr "done")]) world_t1_down =
    (Returned (res_status_json 500 (failure "Error updating task")),
     next_call world_t1_down) ∧
  task_store (next_call world_t1_down) = task_store world_t1.
Proof.
  split; [| reflexivity].
  apply (store_failure_500 (on_task "t1" [("status", JStr "done")])
           world_t1_down).
  reflexivity.
Defined.

(** X6.  The time value that GET /dashboard sorts a created task by is the
    clock reading taken for its [updatedAt]. *)
Theorem created_task_sort_key (req : Request) (w : World) (b : string) :
  truthy (field req "title") = true →
  field req "boardId" = JStr b → b ≠ "" →
  is_Some (board_store w !! b) →
  includes validStatuses (js_or (field req "status") (JStr "todo")) = true →
  store_up 2 w →
  (Z.abs (reading 2 w) ≤ 8640000000000000)%Z →
  ∃ task w',
    post_tasks req w =
      (Returned (res_status_json 201
                   (object [("success", JBool true); ("task", JObj task)])),
       w') ∧
    task_store w' !! next_id w = Some task ∧
    updated task = Some (reading 2 w).
Proof.
  intros Ht Hb Hne Hboard Hst Hup Hrange. eexists _, _.
  split; [by apply (post_tasks_created req w b) |].
  split; [cbn [set_table task_store]; by rewrite lookup_insert_eq |].
  unfold updated.
  replace (attr (new_task req (next_id w) (toISOString (reading 1 w))
                   (toISOString (reading 2 w))) "updatedAt")
    with (JStr (toISOString (reading 2 w))) by reflexivity.
  cbn [Date_value]. by apply Date_parse_toISOString.
Qed.

Lemma created_task_sort_key_witness :
  ∃ task w',
    post_tasks create_T1 world_b1_ticking =
      (Returned (res_status_json 201
                   (object [("success", JBool true); ("task", JObj task)])),
       w') ∧
    task_store w' !! next_id world_b1_ticking = Some task ∧
    updated task = Some (reading 2 world_b1_ticking).
Proof.
  apply (created_task_sort_key create_T1 world_b1_ticking "b1").
  - reflexivity.
  - reflexivity.
  - discriminate.
  - exists board_b1. reflexivity.
  - reflexivity.
  - by apply store_up_none.
  - vm_compute. discriminate.
Defined.

(** X8.  GET /tasks with the id of a board that no task belongs to
    answers an empty flat list, three empty groups and the total 0. *)
Theorem get_tasks_no_match (req : Request) (w : World) (b : string) :
  query req !! "boardId" = Some b → b ≠ "" →
  store_up 1 w →
  (∀ t, t ∈ scan (task_store w) → attr t "boardId" ≠ JStr b) →
  get_tasks req w =
    (Returned (res_json (object
       [("success", JBool true);
        ("tasks", array []);
        ("tasksByStatus",
         JObj (object [("todo", array []); ("in-progress", array []);
                       ("done", array [])]));
        ("total", JNum (number_of_nat 0));
        ("boardId", JStr b)])),
     next_call w).
Proof.
  intros Hb Hne Hup Hnone. unfold get_tasks, try_catch, bind, ret.
  rewrite docClient_send_up by done. unfold query_param. rewrite Hb.
  assert (Htruthy : truthy (JStr b) = true).
  { cbn [truthy]. apply negb_true_iff. by apply String.eqb_neq. }
  change (default JUndefined (JStr <$> Some b)) with (JStr b).
  unfold js_or. rewrite Htruthy.
  cbn [execute table next_call task_store Items].
  assert (List.filter
            (passes (Some ("boardId", ":boardId")) (object [(":boardId", JStr b)]))
            (scan (task_store w)) = []) as ->; [| reflexivity].
  induction (scan (task_store w)) as [|t l IH]; [done |]. cbn [List.filter].
  destruct (passes _ _ t) eqn:Hp.
  - apply passes_boardId in Hp. destruct (Hnone t); [left | done].
  - apply IH. intros t' Ht'. apply Hnone. by right.
Qed.

Lemma get_tasks_no_match_witness :
  get_tasks (list_of_board "b2") world_t1 =
    (Returned (res_json (object
       [("success", JBool true);
        ("tasks", array []);
        ("tasksByStatus",
         JObj (object [("todo", array []); ("in-progress", array []);
                       ("done", array [])]));
        ("total", JNum (number_of_nat 0));
        ("boardId", JStr "b2")])),
     next_call world_t1).
Proof.
  apply (get_tasks_no_match (list_of_board "b2") world_t1 "b2").
  - reflexivity.
  - discriminate.
  - by apply store_up_none.
  - assert (scan (task_store world_t1) = [task_t1]) as ->
      by (vm_compute; reflexivity).
    intros t Ht. apply list_elem_of_singleton in Ht as ->. discriminate.
Defined.

(** ** The effect of every handler on the tables *)

Lemma reading_S (n : nat) (w : World) : (reading n w ≤ reading (S n) w)%Z.
Proof. unfold reading. simpl. lia. Qed.

Lemma reading_mono (n m : nat) (w : World) :
  n ≤ m → (reading n w ≤ reading m w)%Z.
Proof.
  induction 1 as [|m _ IH]; [lia |]. pose proof (reading_S m w). lia.
Qed.

Lemma post_tasks_effect (req : Request) (w : World) (o : outcome Response)
    (w' : World) :
  post_tasks req w = (o, w') →
  (writes_nothing w w' ∧ (reading 0 w ≤ clock_now w')%Z) ∨ creates req w w'.
Proof.
  unfold post_tasks, field.
  unfold try_catch, bind, ret, generateId, new_Date_toISOString, Date_now,
    Math_random_suffix, bind, ret.
  pose proof (reading_mono 0 3 w ltac:(lia)) as Hclock.
  destruct (truthy (attr (body req) "title")) eqn:Ht; cbn [negb];
    [| intros [= <- <-]; by left].
  destruct (truthy (attr (body req) "boardId")) eqn:Hb; cbn [negb];
    [| intros [= <- <-]; by left].
  destruct (docClient_send_cases
              (GetCommand BOARDS_TABLE (attr (body req) "boardId")) w)
    as [-> | ->]; [intros [= <- <-]; by left |].
  cbn [execute].
  destruct (attr (body req) "boardId") as [| |?|?|b|?|?] eqn:Hboard;
    try (intros [= <- <-]; by left).
  cbn [key_of Item table next_call board_store].
  destruct (board_store w !! b) as [board|] eqn:Hsome;
    [| intros [= <- <-]; by left].
  destruct (includes validStatuses
              (js_or (attr (body req) "status") (JStr "todo"))) eqn:Hst;
    cbn [negb]; [| intros [= <- <-]; by left].
  cbv beta iota zeta.
  match goal with
  | |- context [docClient_send ?c ?w0] =>
      destruct (docClient_send_cases c w0) as [-> | ->]
  end; [intros [= <- <-]; by left |].
  cbn [execute]. unfold object at 1. cbn [list_to_map foldr fst snd].
  rewrite lookup_insert_eq. cbn [mbind option_bind key_of].
  intros [= <- <-].
  right. unfold creates, acceptable, created, new_task, field. rewrite Hboard.
  split; [| by split].
  split; [done |]. split; [| done]. exists b. split; [done |]. split.
  { intros ->. simpl in Hb. done. }
  by eexists.
Qed.

Lemma put_task_effect (req : Request) (w : World) (o : outcome Response)
    (w' : World) :
  put_task req w = (o, w') →
  (writes_nothing w w' ∧ (reading 0 w ≤ clock_now w')%Z) ∨ patches req w w'.
Proof.
  unfold put_task, param.
  unfold try_catch, bind, ret, new_Date_toISOString, Date_now, bind, ret.
  pose proof (reading_mono 0 1 w ltac:(lia)) as Hclock.
  match goal with
  | |- context [docClient_send ?c ?w0] =>
      destruct (docClient_send_cases c w0) as [-> | ->]
  end; [intros [= <- <-]; by left |].
  cbn [execute].
  destruct (params req !! "id") as [id|] eqn:Hid; cbn [fmap option_fmap option_map
    default from_option Datatypes.id key_of]; [| intros [= <- <-]; by left].
  cbn [Item table next_call task_store].
  destruct (task_store w !! id) as [old|] eqn:Hold;
    [| intros [= <- <-]; by left].
  destruct (truthy (attr (body req) "title")) eqn:Ht;
  destruct (defined (attr (body req) "description")) eqn:Hd;
  destruct (truthy (attr (body req) "status")) eqn:Hs;
  try (destruct (includes validStatuses (attr (body req) "status")) eqn:Hv;
       cbn [negb]; [| intros [= <- <-]; by left]);
  cbv beta iota zeta;
  (match goal with
   | |- context [docClient_send ?c ?w0] =>
       destruct (docClient_send_cases c w0) as [-> | ->]
   end; [intros [= <- <-]; by left |]);
  cbn [execute key_of resolve_sets app resolve_name mbind option_bind];
  unfold object; cbn [list_to_map foldr fst snd];
  simpl (_ ++ _); cbn [resolve_sets resolve_name mbind option_bind];
  repeat (rewrite ?lookup_insert_eq, ?lookup_singleton_eq;
          rewrite ?lookup_insert_ne by done; cbn [mbind option_bind]);
  cbn [table next_call tick task_store]; rewrite Hold;
  intros [= <- <-]; right; exists id, old;
  unfold status_passes, patch, field; rewrite Ht, Hd, Hs;
  (split; [done |]); (split; [done |]); (split; [by auto |]);
  (split; [reflexivity | by split]).
Qed.

Lemma delete_task_effect (req : Request) (w : World) (o : outcome Response)
    (w' : World) :
  delete_task req w = (o, w') →
  (writes_nothing w w' ∨ removes req w w') ∧ clock_now w' = clock_now w.
Proof.
  unfold delete_task, param. unfold try_catch, bind, ret.
  match goal with
  | |- context [docClient_send ?c ?w0] =>
      destruct (docClient_send_cases c w0) as [-> | ->]
  end; [intros [= <- <-]; split; [by left | done] |].
  cbn [execute].
  destruct (params req !! "id") as [id|] eqn:Hid; cbn [fmap option_fmap option_map
    default from_option Datatypes.id key_of];
    [| intros [= <- <-]; split; [by left | done]].
  cbn [Item table next_call task_store].
  destruct (task_store w !! id) as [old|] eqn:Hold;
    [| intros [= <- <-]; split; [by left | done]].
  match goal with
  | |- context [docClient_send ?c ?w0] =>
      destruct (docClient_send_cases c w0) as [-> | ->]
  end; [intros [= <- <-]; split; [by left | done] |].
  cbn [execute key_of]. intros [= <- <-]. split; [| done]. right. exists id.
  split; [done |]. split; [by eexists |]. split; reflexivity.
Qed.

(** The handlers that only read. *)
Lemma readers_effect (req : Request) (w : World) :
  writes_nothing w (get_tasks req w).2 ∧
  writes_nothing w (get_task req w).2 ∧
  writes_nothing w (get_dashboard req w).2 ∧
  writes_nothing w (get_boards req w).2 ∧
  writes_nothing w (get_health req w).2 ∧
  writes_nothing w (not_found req w).2.
Proof.
  repeat split;
    unfold get_tasks, get_task, get_dashboard, get_boards, get_health, not_found;
    run_handler; reflexivity.
Qed.

Lemma readers_clock (req : Request) (w : World) :
  (clock_now w ≤ clock_now (get_tasks req w).2)%Z ∧
  (clock_now w ≤ clock_now (get_task req w).2)%Z ∧
  (clock_now w ≤ clock_now (get_dashboard req w).2)%Z ∧
  (clock_now w ≤ clock_now (get_boards req w).2)%Z ∧
  (clock_now w ≤ clock_now (get_health req w).2)%Z ∧
  (clock_now w ≤ clock_now (not_found req w).2)%Z.
Proof.
  repeat split;
    unfold get_tasks, get_task, get_dashboard, get_boards, get_health, not_found;
    run_handler; simpl; lia.
Qed.

(** An answer 400 or 404 comes without a write. *)
Lemma rejections_write_nothing (req : Request) (w : World) (r : Response)
    (w' : World) :
  post_tasks req w = (Returned r, w') ∨ put_task req w = (Returned r, w')
    ∨ delete_task req w = (Returned r, w') →
  status r = 400 ∨ status r = 404 →
  task_store w' = task_store w.
Proof.
  intros [H | [H | H]] Hst; revert H Hst.
  - unfold post_tasks. run_handler; intros [= <- <-] [? | ?]; done.
  - unfold put_task. run_handler; intros [= <- <-] [? | ?]; done.
  - unfold delete_task. run_handler; intros [= <- <-] [? | ?]; done.
Qed.

Lemma app_world (h : HttpRequest) (w : World) :
  (app h w).2 = match method h, payload h with
                | OPTIONS, _ | _, None => w
                | _, Some b => (route h b w).2
                end.
Proof.
  unfold app, app_given, handled.
  destruct (method h), (payload h) as [b|]; try done;
    by destruct (route h b w) as [[r|e] w'].
Qed.

(** What the router does to the tables and to the clock. *)
Lemma route_effect (h : HttpRequest) (b : item) (w : World) :
  (clock_now w ≤ clock_now (route h b w).2)%Z ∧
  (writes_nothing w (route h b w).2 ∨
   method h = POST ∧ (∃ req, creates req w (route h b w).2) ∨
   method h = PUT ∧ (∃ req, patches req w (route h b w).2) ∨
   method h = DELETE ∧ (∃ req, removes req w (route h b w).2)).
Proof.
  destruct (route_cases h b)
    as [[req Hr] | [-> | [[Hm [req ->]] | [[Hm [req ->]] | [Hm [req ->]]]]]].
  - pose proof (readers_effect req w) as Hread.
    pose proof (readers_clock req w) as Hclock.
    destruct Hr as [-> | [-> | [-> | [-> | [-> | ->]]]]];
      (split; [apply Hclock | left; apply Hread]).
  - split; [cbn; lia | by left].
  - destruct (post_tasks req w) as [o w'] eqn:E. cbn [snd].
    apply post_tasks_effect in E as [[E Hc] | E].
    + split; [exact Hc | by left].
    + split; [| right; left; eauto].
      destruct E as (_ & _ & _ & ->). apply (reading_mono 0 3). lia.
  - destruct (put_task req w) as [o w'] eqn:E. cbn [snd].
    apply put_task_effect in E as [[E Hc] | E].
    + split; [exact Hc | by left].
    + split; [| right; right; left; eauto].
      destruct E as (id & old & _ & _ & _ & _ & _ & ->).
      apply (reading_mono 0 1). lia.
  - destruct (delete_task req w) as [o w'] eqn:E. cbn [snd].
    apply delete_task_effect in E as [E Hc].
    split; [rewrite Hc; lia |].
    destruct E as [E | E]; [by left | right; right; right; eauto].
Qed.

(** What a request does to the tables, by its method. *)
Lemma app_effect (h : HttpRequest) (w : World) :
  match method h with
  | GET | HEAD | OPTIONS | OTHER => writes_nothing w (app h w).2
  | POST => writes_nothing w (app h w).2 ∨ ∃ req, creates req w (app h w).2
  | PUT => writes_nothing w (app h w).2 ∨ ∃ req, patches req w (app h w).2
  | DELETE => writes_nothing w (app h w).2 ∨ ∃ req, removes req w (app h w).2
  end.
Proof.
  rewrite app_world.
  destruct (payload h) as [b|];
    [| by destruct (method h); try left].
  destruct (route_effect h b w) as [_ He].
  destruct (method h) eqn:Hm; try done;
    destruct He as [He | [[? He] | [[? He] | [? He]]]];
    first [ exact He | by left | by right | discriminate ].
Qed.

(** The clock never goes back. *)
Lemma app_clock (h : HttpRequest) (w : World) :
  (clock_now w ≤ clock_now (app h w).2)%Z.
Proof.
  rewrite app_world. destruct (method h), (payload h) as [b|]; try lia;
    apply route_effect.
Qed.

Lemma app_board_store (h : HttpRequest) (w : World) :
  board_store (app h w).2 = board_store w.
Proof.
  pose proof (app_effect h w) as He.
  destruct (method h);
    first [ by destruct He as [_ ?]
          | destruct He as [[_ ?] | [req He]]; [done |];
            first [ by destruct He as (_ & _ & ? & _)
                  | by destruct He as (? & ? & _ & _ & _ & _ & ? & _)
                  | by destruct He as (? & _ & _ & _ & ?) ] ].
Qed.


Lemma route_rejection (h : HttpRequest) (b : item) (w : World) (r : Response)
    (w' : World) :
  route h b w = (Returned r, w') →
  status r = 400 ∨ status r = 404 →
  task_store w' = task_store w.
Proof.
  destruct (route_cases h b)
    as [[req Hq] | [-> | [[_ [req ->]] | [[_ [req ->]] | [_ [req ->]]]]]].
  - pose proof (readers_effect req w) as Hread.
    assert (Hw : writes_nothing w (route h b w).2)
      by (destruct Hq as [-> | [-> | [-> | [-> | [-> | ->]]]]]; apply Hread).
    intros Hr _. rewrite Hr in Hw. by destruct Hw.
  - discriminate.
  - intros Hr Hst. by apply (rejections_write_nothing req w r w'); [left |].
  - intros Hr Hst.
    by apply (rejections_write_nothing req w r w'); [right; left |].
  - intros Hr Hst.
    by apply (rejections_write_nothing req w r w'); [right; right |].
Qed.

Lemma app_code (h : HttpRequest) (w : World) :
  method h ≠ OPTIONS → code (app h w).1 = status (handled h w).1.
Proof. intros Hm. rewrite app_handled by done. by destruct (method h). Qed.

(** X9.  The footprint of a request.  No request writes the board
    table; a request that is neither a POST, a PUT nor a DELETE leaves
    the task table as it was; so does every request that is answered
    400 or 404; and whatever the request, at most one key of the task
    table is touched. *)
Theorem app_footprint (h : HttpRequest) (w : World) :
  board_store (app h w).2 = board_store w ∧
  (method h = GET ∨ method h = HEAD ∨ method h = OPTIONS ∨ method h = OTHER →
     task_store (app h w).2 = task_store w) ∧
  (code (app h w).1 = 400 ∨ code (app h w).1 = 404 →
     task_store (app h w).2 = task_store w) ∧
  ∃ k, ∀ k', k' ≠ k → task_store (app h w).2 !! k' = task_store w !! k'.
Proof.
  pose proof (app_effect h w) as He.
  split; [apply app_board_store |]. split; [| split].
  - intros [Hm | [Hm | [Hm | Hm]]]; rewrite Hm in He; by destruct He.
  - assert (Hopt : method h = OPTIONS ∨ method h ≠ OPTIONS)
      by (destruct (method h); auto).
    destruct Hopt as [Hm | Hm]; [rewrite Hm in He; intros _; by destruct He |].
    rewrite (app_code h w Hm), (app_handled h w Hm). cbn [snd]. intros Hst.
    destruct (handled_cases h w) as [_ [(b & _ & Hr) | [Hw H500]]].
    + by apply (route_rejection h b w _ _ Hr).
    + rewrite H500 in Hst. by destruct Hst.
  - destruct (method h);
      first [ destruct He as [-> _]; by exists ""
            | destruct He as [[-> _] | [req He]]; [by exists "" |] ].
    + destruct He as (_ & -> & _).
      exists (next_id w). intros k' Hk. by rewrite lookup_insert_ne.
    + destruct He as (id & old & _ & _ & _ & -> & _).
      exists id. intros k' Hk. by rewrite lookup_insert_ne.
    + destruct He as (id & _ & _ & -> & _).
      exists id. intros k' Hk. by rewrite lookup_delete_ne.
Qed.

(** ** Invariants of the task table *)

Lemma attr_insert_eq (it : item) (k : string) (v : jsval) :
  attr (<[k := v]> it) k = v.
Proof. unfold attr. by rewrite lookup_insert_eq. Qed.

Lemma attr_insert_ne (it : item) (k k' : string) (v : jsval) :
  k ≠ k' → attr (<[k := v]> it) k' = attr it k'.
Proof. intros. unfold attr. by rewrite lookup_insert_ne. Qed.

Lemma created_well_formed (req : Request) (w w' : World) :
  acceptable req w →
  board_store w' = board_store w →
  (reading 2 w ≤ clock_now w')%Z →
  task_well_formed w' (next_id w) (created req w).
Proof.
  intros (Ht & (b & Hb & _ & Hboard) & Hst) Hbs Hclock.
  unfold task_well_formed.
  split; [reflexivity |]. split; [exact Ht |]. split; [exact Hst |].
  split; [exists b; split; [exact Hb | by rewrite Hbs] |].
  exists (reading 1 w), (reading 2 w).
  split; [reflexivity |]. split; [reflexivity |].
  pose proof (reading_S 1 w). lia.
Qed.

Ltac patch_lookup :=
  unfold patch, attr; repeat case_match;
  repeat first [ rewrite lookup_insert_eq | rewrite lookup_insert_ne by done ];
  try done; try congruence.

Lemma patch_title (req : Request) (now : string) (old : item) :
  attr (patch req now old) "title" =
  if truthy (field req "title") then field req "title" else attr old "title".
Proof. patch_lookup. Qed.

Lemma patch_status (req : Request) (now : string) (old : item) :
  attr (patch req now old) "status" =
  if truthy (field req "status") then field req "status" else attr old "status".
Proof. patch_lookup. Qed.

Lemma patch_description (req : Request) (now : string) (old : item) :
  attr (patch req now old) "description" =
  if defined (field req "description") then field req "description"
  else attr old "description".
Proof. patch_lookup. Qed.

Lemma patch_updatedAt (req : Request) (now : string) (old : item) :
  attr (patch req now old) "updatedAt" = JStr now.
Proof. patch_lookup. Qed.

Lemma patch_well_formed (req : Request) (w w' : World) (id : string)
    (old : item) :
  status_passes req →
  board_store w' = board_store w →
  (clock_now w ≤ clock_now w')%Z →
  task_well_formed w id old →
  task_well_formed w' id (patch req (toISOString (clock_now w)) old).
Proof.
  intros Hst Hbs Hclock (Hid & Htitle & Hstatus & Hboard & c & u & Hc & Hu & Hcu).
  unfold task_well_formed. unfold status_passes in Hst.
  split; [by rewrite patch_frame |].
  assert (Hb : attr (patch req (toISOString (clock_now w)) old) "boardId"
               = attr old "boardId")
    by (unfold attr; by rewrite patch_frame).
  assert (Hcr : attr (patch req (toISOString (clock_now w)) old) "createdAt"
                = attr old "createdAt")
    by (unfold attr; by rewrite patch_frame).
  rewrite Hb, Hcr, patch_title, patch_status, patch_updatedAt, Hbs.
  split; [by destruct (truthy (field req "title")) eqn:E |].
  split; [destruct (truthy (field req "status")) eqn:E;
            [by destruct Hst | done] |].
  split; [done |]. exists c, (clock_now w).
  split; [done |]. split; [done |]. lia.
Qed.

Lemma task_well_formed_later (w w' : World) (k : string) (t : item) :
  board_store w' = board_store w →
  (clock_now w ≤ clock_now w')%Z →
  task_well_formed w k t → task_well_formed w' k t.
Proof.
  unfold task_well_formed. intros -> Hclock.
  intros (? & ? & ? & ? & c & u & ? & ? & ?).
  repeat (split; [done |]). exists c, u. repeat (split; [done |]). lia.
Qed.

Lemma app_keeps_store_well_formed (h : HttpRequest) (w : World) :
  store_well_formed w → store_well_formed (app h w).2.
Proof.
  intros Hwf. pose proof (app_effect h w) as He.
  pose proof (app_clock h w) as Hclock.
  pose proof (app_board_store h w) as Hbs.
  assert (Hsame : writes_nothing w (app h w).2 → store_well_formed (app h w).2).
  { intros [Ht _] k t Hk. rewrite Ht in Hk.
    eapply task_well_formed_later; [exact Hbs | exact Hclock | by apply Hwf]. }
  destruct (method h); try (by apply Hsame);
    destruct He as [He | [req He]]; try (by apply Hsame).
  - destruct He as (Hacc & Hstore & _ & Hnow).
    intros k t Hk. rewrite Hstore in Hk.
    destruct (decide (k = next_id w)) as [-> | Hneq].
    + rewrite lookup_insert_eq in Hk. injection Hk as <-.
      apply created_well_formed; [done | done |].
      rewrite Hnow. apply reading_S.
    + rewrite lookup_insert_ne in Hk by done.
      eapply task_well_formed_later; [exact Hbs | exact Hclock | by apply Hwf].
  - destruct He as (id & old & Hid & Hold & Hst & Hstore & _ & Hnow).
    intros k t Hk. rewrite Hstore in Hk.
    destruct (decide (k = id)) as [-> | Hneq].
    + rewrite lookup_insert_eq in Hk. injection Hk as <-.
      apply patch_well_formed; [done | done | done | by apply Hwf].
    + rewrite lookup_insert_ne in Hk by done.
      eapply task_well_formed_later; [exact Hbs | exact Hclock | by apply Hwf].
  - destruct He as (id & Hid & Hsome & Hstore & _).
    intros k t Hk. rewrite Hstore in Hk.
    apply lookup_delete_Some in Hk as [_ Hk].
    eapply task_well_formed_later; [exact Hbs | exact Hclock | by apply Hwf].
Qed.

Lemma serve_cons (h : HttpRequest) (hs : list HttpRequest) (w : World) :
  (serve (h :: hs) w).2 = (serve hs (app h w).2).2.
Proof.
  cbn [serve]. destruct (app h w) as [r w1]. cbn [snd].
  by destruct (serve hs w1).
Qed.

Lemma serve_board_store (hs : list HttpRequest) (w : World) :
  board_store (serve hs w).2 = board_store w.
Proof.
  revert w. induction hs as [|h hs IH]; intros w; [done |].
  by rewrite serve_cons, IH, app_board_store.
Qed.

Lemma world_t1_well_formed : store_well_formed world_t1.
Proof.
  intros k t Hk.
  change (task_store world_t1) with ({[ "t1" := task_t1 ]} : gmap string item) in Hk.
  apply lookup_singleton_Some in Hk as [<- <-].
  split; [reflexivity |]. split; [reflexivity |]. split; [reflexivity |].
  split; [exists "b1"; split; [reflexivity | by exists board_b1] |].
  exists 1730000000000%Z, 1730000000000%Z.
  split; [vm_compute; reflexivity |]. split; [vm_compute; reflexivity |].
  cbn. lia.
Qed.

(** X10.  Requests that are handled one after the other keep the task
    table well formed and never change the board table: when every
    stored task has its key as [id], a non-empty title, one of the three
    statuses, the id of a stored board as [boardId], and time stamps in
    ISO form with [createdAt] not after [updatedAt] and neither after
    the clock, the same holds after any sequence of requests. *)
Theorem serve_keeps_store_well_formed (hs : list HttpRequest) (w : World) :
  store_well_formed w →
  store_well_formed (serve hs w).2 ∧ board_store (serve hs w).2 = board_store w.
Proof.
  intros Hwf. split; [| apply serve_board_store].
  revert w Hwf. induction hs as [|h hs IH]; intros w Hwf; [done |].
  rewrite serve_cons. by apply IH, app_keeps_store_well_formed.
Qed.

Lemma serve_keeps_store_well_formed_witness :
  store_well_formed (serve sample_session world_t1).2 ∧
  board_store (serve sample_session world_t1).2 = board_store world_t1.
Proof.
  apply (serve_keeps_store_well_formed sample_session world_t1).
  exact world_t1_well_formed.
Defined.

(** ** Generated ids *)

Lemma pretty_N_go_length (k : nat) (x : N) (s : string) :
  (10 ^ N.of_nat k ≤ x < 10 ^ N.of_nat (S k))%N →
  String.length (pretty_N_go x s) = (S k + String.length s)%nat.
Proof.
  revert x s. induction k as [|k IH]; intros x s Hx.
  - change (10 ^ N.of_nat 0)%N with 1%N in Hx.
    change (10 ^ N.of_nat 1)%N with 10%N in Hx.
    rewrite pretty_N_go_step by lia.
    rewrite N.div_small by lia. by rewrite pretty_N_go_0.
  - rewrite !Nat2N.inj_succ, !N.pow_succ_r' in Hx.
    assert (0 < 10 ^ N.of_nat k)%N by (apply N.neq_0_lt_0, N.pow_nonzero; lia).
    rewrite pretty_N_go_step by lia. rewrite IH; [simpl; lia |].
    rewrite Nat2N.inj_succ, N.pow_succ_r'. split.
    + apply N.div_le_lower_bound; lia.
    + apply N.Div0.div_lt_upper_bound. lia.
Qed.

(** [Date.now().toString()] has 13 digits from 2001-09-09 to
    2286-11-20. *)
Lemma pretty_clock_length (t : Z) :
  (10 ^ 12 ≤ t < 10 ^ 13)%Z → String.length (pretty t) = 13%nat.
Proof.
  intros Ht. destruct t as [|p|p]; [lia | | lia].
  unfold pretty, pretty_Z, pretty, pretty_positive, pretty, pretty_N.
  case_decide; [lia |].
  rewrite (pretty_N_go_length 12); [done |].
  change (10 ^ N.of_nat 12)%N with (Z.to_N (10 ^ 12)).
  change (10 ^ N.of_nat 13)%N with (Z.to_N (10 ^ 13)). lia.
Qed.

Lemma append_inj_length (a b r s : string) :
  String.length a = String.length b → a +:+ r = b +:+ s → a = b ∧ r = s.
Proof.
  revert b. induction a as [|x a IH]; intros [|y b] Hlen; try discriminate.
  - by rewrite !append_empty.
  - rewrite !append_cons. intros [= -> H]. injection Hlen as Hlen.
    destruct (IH b Hlen H) as [-> ->]. done.
Qed.

Lemma next_id_inj (w1 w2 : World) :
  (10 ^ 12 ≤ clock_now w1 < 10 ^ 13)%Z →
  (10 ^ 12 ≤ clock_now w2 < 10 ^ 13)%Z →
  next_id w1 = next_id w2 →
  clock_now w1 = clock_now w2 ∧ hd "" (random_pool w1) = hd "" (random_pool w2).
Proof.
  intros H1 H2 Heq. unfold next_id in Heq.
  apply append_inj_length in Heq as [Ht Hr].
  - split; [| done]. by apply (inj pretty).
  - by rewrite !pretty_clock_length.
Qed.

Lemma generateId_next_id (w : World) :
  generateId w = (Returned (next_id w), draw (tick w)).
Proof. reflexivity. Qed.

(** X11.  Two generated ids are equal only when they were made in the
    same millisecond from the same random suffix, as long as the clock
    has 13 digits. *)
Theorem generateId_collision (w1 w2 : World) :
  (10 ^ 12 ≤ clock_now w1 < 10 ^ 13)%Z →
  (10 ^ 12 ≤ clock_now w2 < 10 ^ 13)%Z →
  (generateId w1).1 = (generateId w2).1 ↔
  clock_now w1 = clock_now w2 ∧ hd "" (random_pool w1) = hd "" (random_pool w2).
Proof.
  intros H1 H2. rewrite !generateId_next_id. cbn [fst]. split.
  - intros [= Heq]. by apply next_id_inj.
  - intros [Ht Hr]. unfold next_id. by rewrite Ht, Hr.
Qed.

Lemma generateId_collision_witness :
  (generateId world_b1).1 = (generateId world_t1_later).1 ↔
  clock_now world_b1 = clock_now world_t1_later ∧
  hd "" (random_pool world_b1) = hd "" (random_pool world_t1_later).
Proof.
  apply (generateId_collision world_b1 world_t1_later).
  - cbn. lia.
  - cbn. lia.
Defined.
(** ** One request after the other *)

Lemma store_up_faults (n : nat) (w w' : World) :
  store_faults w' = store_faults w → store_up n w → store_up n w'.
Proof. unfold store_up. by intros ->. Qed.

Lemma store_up_after_2 (n : nat) (w w' : World) :
  store_faults w' = tl (tl (store_faults w)) →
  store_up (2 + n) w → store_up n w'.
Proof.
  intros Hf Hup. apply store_up_next, store_up_next in Hup.
  by apply (store_up_faults n (next_call (next_call w))).
Qed.

Lemma post_tasks_accepted (req : Request) (w : World) :
  acceptable req w → store_up 2 w →
  post_tasks req w =
    (Returned (task_answer 201 (created req w)),
     set_table TASKS_TABLE (<[next_id w := created req w]> (task_store w))
       (next_call (tick (tick (draw (tick (next_call w))))))).
Proof.
  intros (Ht & (b & Hb & Hne & Hboard) & Hst) Hup.
  by apply (post_tasks_created req w b).
Qed.

Lemma get_task_found (req : Request) (w : World) (id : string) (it : item) :
  params req !! "id" = Some id →
  task_store w !! id = Some it →
  store_up 1 w →
  get_task req w = (Returned (task_answer 200 it), next_call w).
Proof.
  intros Hid Hit Hup. unfold get_task. rewrite (param_id _ _ Hid).
  unfold try_catch, bind, ret. rewrite docClient_send_up by done.
  rewrite execute_get_task. cbn [Item next_call task_store]. by rewrite Hit.
Qed.

Lemma get_task_missing (req : Request) (w : World) (id : string) :
  params req !! "id" = Some id →
  task_store w !! id = None →
  store_up 1 w →
  get_task req w =
    (Returned (res_status_json 404 (failure "Task not found")), next_call w).
Proof.
  intros Hid Hit Hup. unfold get_task. rewrite (param_id _ _ Hid).
  unfold try_catch, bind, ret. rewrite docClient_send_up by done.
  rewrite execute_get_task. cbn [Item next_call task_store]. by rewrite Hit.
Qed.

Lemma get_tasks_all (req : Request) (w : World) :
  truthy (query_param req "boardId") = false →
  store_up 1 w →
  get_tasks req w = (Returned (listing (scan (task_store w)) JNull), next_call w).
Proof.
  intros Hq Hup. unfold get_tasks, try_catch, bind, ret.
  rewrite docClient_send_up by done. unfold js_or. rewrite Hq.
  cbn [execute Items table next_call task_store].
  by rewrite filter_passes_None.
Qed.

Lemma get_tasks_of_board (req : Request) (w : World) (b : string) :
  query req !! "boardId" = Some b → b ≠ "" →
  store_up 1 w →
  get_tasks req w =
    (Returned (listing
       (List.filter (λ t, is_str (attr t "boardId") b)
          (scan (task_store w))) (JStr b)),
     next_call w).
Proof.
  intros Hb Hne Hup. unfold get_tasks, try_catch, bind, ret.
  rewrite docClient_send_up by done. unfold query_param. rewrite Hb.
  assert (Htruthy : truthy (JStr b) = true).
  { cbn [truthy]. apply negb_true_iff. by apply String.eqb_neq. }
  change (default JUndefined (JStr <$> Some b)) with (JStr b).
  unfold js_or. rewrite Htruthy.
  cbn [execute table next_call task_store Items].
  assert (List.filter
            (passes (Some ("boardId", ":boardId")) (object [(":boardId", JStr b)]))
            (scan (task_store w))
          = List.filter (λ t, is_str (attr t "boardId") b)
              (scan (task_store w))) as ->; [| reflexivity].
  apply filter_ext. intros t.
  destruct (passes _ _ t) eqn:Hp.
  - apply passes_boardId in Hp. symmetry. by apply is_str_spec.
  - destruct (is_str (attr t "boardId") b) eqn:Hs; [| done].
    apply is_str_spec, passes_boardId in Hs. congruence.
Qed.
Lemma response_of_returned (m : M Response) (w w' : World) (r : Response) :
  m w = (Returned r, w') → response_of m w = r ∧ world_after m w = w'.
Proof. unfold response_of, world_after. by intros ->. Qed.

Lemma world_after_post (req : Request) (w : World) :
  acceptable req w → store_up 2 w →
  response_of (post_tasks req) w = task_answer 201 (created req w) ∧
  task_store (world_after (post_tasks req) w)
    = <[next_id w := created req w]> (task_store w) ∧
  board_store (world_after (post_tasks req) w) = board_store w ∧
  clock_now (world_after (post_tasks req) w) = reading 3 w ∧
  clock_ticks (world_after (post_tasks req) w) = tl (tl (tl (clock_ticks w))) ∧
  random_pool (world_after (post_tasks req) w) = tl (random_pool w) ∧
  store_faults (world_after (post_tasks req) w) = tl (tl (store_faults w)).
Proof.
  intros Hacc Hup.
  destruct (response_of_returned _ _ _ _ (post_tasks_accepted req w Hacc Hup))
    as [-> ->].
  done.
Qed.

Lemma world_after_put (req : Request) (w : World) (id : string) (old : item) :
  params req !! "id" = Some id →
  task_store w !! id = Some old →
  store_up 2 w → status_passes req →
  response_of (put_task req) w
    = task_answer 200 (patch req (toISOString (clock_now w)) old) ∧
  task_store (world_after (put_task req) w)
    = <[id := patch req (toISOString (clock_now w)) old]> (task_store w) ∧
  board_store (world_after (put_task req) w) = board_store w ∧
  clock_now (world_after (put_task req) w) = reading 1 w ∧
  store_faults (world_after (put_task req) w) = tl (tl (store_faults w)).
Proof.
  intros Hid Hold Hup Hst.
  destruct (response_of_returned _ _ _ _ (put_task_updates req w id old Hid Hold Hup Hst))
    as [-> ->].
  done.
Qed.

Lemma world_after_delete (req : Request) (w : World) (id : string) :
  params req !! "id" = Some id →
  is_Some (task_store w !! id) →
  store_up 2 w →
  status (response_of (delete_task req) w) = 200 ∧
  task_store (world_after (delete_task req) w) = delete id (task_store w) ∧
  board_store (world_after (delete_task req) w) = board_store w ∧
  store_faults (world_after (delete_task req) w) = tl (tl (store_faults w)).
Proof.
  intros Hid Hold Hup.
  destruct (response_of_returned _ _ _ _ (delete_task_deletes req w id Hid Hold Hup))
    as [-> ->].
  done.
Qed.

Lemma get_tasks_lists (list : Request) (w : World) (b : string) :
  (∀ q, query list !! "boardId" = Some q → q = b) → b ≠ "" →
  store_up 1 w →
  ∃ tasks,
    response_of (get_tasks list) w
      = listing tasks (js_or (query_param list "boardId") JNull) ∧
    (∀ t, t ∈ tasks → t ∈ scan (task_store w)) ∧
    (∀ t, t ∈ scan (task_store w) → attr t "boardId" = JStr b → t ∈ tasks).
Proof.
  intros Hq Hne Hup. destruct (query list !! "boardId") as [q|] eqn:E.
  - rewrite (Hq q eq_refl) in E.
    destruct (response_of_returned _ _ _ _ (get_tasks_of_board list w b E Hne Hup))
      as [-> _].
    eexists. split; [| split].
    + assert (Htruthy : truthy (JStr b) = true).
      { cbn [truthy]. apply negb_true_iff. by apply String.eqb_neq. }
      unfold query_param, js_or. rewrite E.
      change (default JUndefined (JStr <$> Some b)) with (JStr b).
      by rewrite Htruthy.
    + intros t. rewrite !list_elem_of_In, filter_In. tauto.
    + intros t Ht Hb. rewrite list_elem_of_In, filter_In, <- list_elem_of_In.
      split; [done | by apply is_str_spec].
  - assert (Hf : truthy (query_param list "boardId") = false)
      by (unfold query_param; by rewrite E).
    destruct (response_of_returned _ _ _ _ (get_tasks_all list w Hf Hup))
      as [-> _].
    exists (scan (task_store w)). unfold js_or. rewrite Hf. done.
Qed.

Lemma create_T1_acceptable (w : World) :
  board_store w = board_store world_b1 → acceptable create_T1 w.
Proof.
  intros Hb. split; [reflexivity |]. split; [| reflexivity].
  exists "b1". split; [reflexivity |]. split; [discriminate |].
  rewrite Hb. by exists board_b1.
Qed.

(** X12.  Reading back a created task: after a POST /tasks that passes
    the checks, GET /tasks/:id with the id of the answer gives the same
    task, and GET /tasks lists it, unfiltered or filtered by its board. *)
Theorem post_read_back (req get list : Request) (w : World) (b : string) :
  acceptable req w → store_up 3 w →
  params get !! "id" = Some (next_id w) →
  field req "boardId" = JStr b →
  (∀ q, query list !! "boardId" = Some q → q = b) →
  response_of (post_tasks req) w = task_answer 201 (created req w) ∧
  (created req w) !! "id" = Some (JStr (next_id w)) ∧
  response_of (get_task get) (world_after (post_tasks req) w)
    = task_answer 200 (created req w) ∧
  ∃ tasks,
    response_of (get_tasks list) (world_after (post_tasks req) w)
      = listing tasks (js_or (query_param list "boardId") JNull) ∧
    created req w ∈ tasks.
Proof.
  intros Hacc Hup Hid Hb Hq.
  destruct (world_after_post req w Hacc (store_up_le 2 3 w ltac:(lia) Hup))
    as (Hr & Hts & _ & _ & _ & _ & Hf).
  assert (Hup1 : store_up 1 (world_after (post_tasks req) w))
    by (by apply (store_up_after_2 1 w)).
  assert (Hne : b ≠ "").
  { destruct Hacc as (_ & (b' & Hb' & Hne & _) & _). congruence. }
  split; [exact Hr |]. split; [reflexivity |]. split.
  - apply (response_of_returned _ _ (next_call (world_after (post_tasks req) w))).
    apply (get_task_found get _ (next_id w)); [done | | done].
    rewrite Hts. by rewrite lookup_insert_eq.
  - destruct (get_tasks_lists list (world_after (post_tasks req) w) b
                Hq Hne Hup1) as (tasks & Hl & _ & Hin).
    exists tasks. split; [exact Hl |]. apply Hin.
    + apply elem_of_scan. exists (next_id w). rewrite Hts.
      by rewrite lookup_insert_eq.
    + exact Hb.
Qed.

Lemma post_read_back_witness :
  response_of (post_tasks create_T1) world_b1
    = task_answer 201 (created create_T1 world_b1) ∧
  (created create_T1 world_b1) !! "id" = Some (JStr (next_id world_b1)) ∧
  response_of (get_task (on_task (next_id world_b1) []))
    (world_after (post_tasks create_T1) world_b1)
    = task_answer 200 (created create_T1 world_b1) ∧
  ∃ tasks,
    response_of (get_tasks (list_of_board "b1"))
      (world_after (post_tasks create_T1) world_b1)
      = listing tasks (js_or (query_param (list_of_board "b1") "boardId") JNull) ∧
    created create_T1 world_b1 ∈ tasks.
Proof.
  apply (post_read_back create_T1 (on_task (next_id world_b1) [])
           (list_of_board "b1") world_b1 "b1").
  - by apply create_T1_acceptable.
  - by apply store_up_none.
  - apply lookup_singleton_eq.
  - reflexivity.
  - intros q Hq. cbn [list_of_board query] in Hq.
    rewrite lookup_singleton_eq in Hq. by injection Hq.
Defined.

(** X13.  Reading back an update: after a PUT /tasks/:id that goes
    through, GET /tasks/:id answers with the task that the PUT
    answered with, and every other task is as it was. *)
Theorem put_read_back (req get : Request) (w : World) (id : string) (old : item) :
  params req !! "id" = Some id →
  params get !! "id" = Some id →
  task_store w !! id = Some old →
  status_passes req → store_up 3 w →
  response_of (put_task req) w
    = task_answer 200 (patch req (toISOString (clock_now w)) old) ∧
  response_of (get_task get) (world_after (put_task req) w)
    = response_of (put_task req) w ∧
  ∀ other, other ≠ id →
    task_store (world_after (put_task req) w) !! other = task_store w !! other.
Proof.
  intros Hid Hget Hold Hst Hup.
  destruct (world_after_put req w id old Hid Hold
              (store_up_le 2 3 w ltac:(lia) Hup) Hst)
    as (Hr & Hts & _ & _ & Hf).
  assert (Hup1 : store_up 1 (world_after (put_task req) w))
    by (by apply (store_up_after_2 1 w)).
  split; [exact Hr |]. split.
  - rewrite Hr.
    apply (response_of_returned _ _ (next_call (world_after (put_task req) w))).
    apply (get_task_found get _ id); [done | | done].
    rewrite Hts. by rewrite lookup_insert_eq.
  - intros other Hother. rewrite Hts. by rewrite lookup_insert_ne.
Qed.

Lemma put_read_back_witness :
  response_of (put_task (on_task "t1" [("status", JStr "done")])) world_t1_later
    = task_answer 200
        (patch (on_task "t1" [("status", JStr "done")])
           (toISOString (clock_now world_t1_later)) task_t1) ∧
  response_of (get_task (on_task "t1" []))
    (world_after (put_task (on_task "t1" [("status", JStr "done")])) world_t1_later)
    = response_of (put_task (on_task "t1" [("status", JStr "done")])) world_t1_later ∧
  ∀ other, other ≠ "t1" →
    task_store (world_after (put_task (on_task "t1" [("status", JStr "done")]))
                  world_t1_later) !! other
    = task_store world_t1_later !! other.
Proof.
  apply (put_read_back (on_task "t1" [("status", JStr "done")]) (on_task "t1" [])
           world_t1_later "t1" task_t1).
  - reflexivity.
  - reflexivity.
  - reflexivity.
  - right. reflexivity.
  - by apply store_up_none.
Defined.

(** X14.  After a DELETE /tasks/:id that goes through, GET /tasks/:id
    answers 404, GET /tasks lists one task less, all of them tasks that
    were stored before, and every other task is still stored. *)
Theorem delete_read_back (req get list : Request) (w : World) (id : string) :
  params req !! "id" = Some id →
  params get !! "id" = Some id →
  truthy (query_param list "boardId") = false →
  is_Some (task_store w !! id) →
  store_up 3 w →
  status (response_of (delete_task req) w) = 200 ∧
  response_of (get_task get) (world_after (delete_task req) w)
    = res_status_json 404 (failure "Task not found") ∧
  (∃ tasks,
    response_of (get_tasks list) (world_after (delete_task req) w)
      = listing tasks JNull ∧
    S (length tasks) = length (scan (task_store w)) ∧
    (∀ t, t ∈ tasks → t ∈ scan (task_store w))) ∧
  ∀ other, other ≠ id →
    task_store (world_after (delete_task req) w) !! other = task_store w !! other.
Proof.
  intros Hid Hget Hq Hold Hup.
  destruct (world_after_delete req w id Hid Hold
              (store_up_le 2 3 w ltac:(lia) Hup))
    as (Hr & Hts & _ & Hf).
  assert (Hup1 : store_up 1 (world_after (delete_task req) w))
    by (by apply (store_up_after_2 1 w)).
  split; [exact Hr |]. split; [| split].
  - apply (response_of_returned _ _ (next_call (world_after (delete_task req) w))).
    apply (get_task_missing get _ id); [done | | done].
    rewrite Hts. by rewrite lookup_delete_eq.
  - exists (scan (task_store (world_after (delete_task req) w))).
    split; [| split].
    + by apply (response_of_returned _ _
                  (next_call (world_after (delete_task req) w))), get_tasks_all.
    + rewrite Hts, !length_scan, map_size_delete_Some by done.
      destruct Hold as [old Hold].
      assert (size (task_store w) ≠ 0); [| lia].
      intros Hz. apply map_size_empty_inv in Hz. rewrite Hz in Hold.
      by rewrite lookup_empty in Hold.
    + intros t. rewrite Hts, !elem_of_scan. intros [k Hk].
      apply lookup_delete_Some in Hk as [_ Hk]. by exists k.
  - intros other Hother. rewrite Hts. by rewrite lookup_delete_ne.
Qed.

Lemma delete_read_back_witness :
  status (response_of (delete_task (on_task "t1" [])) world_t1) = 200 ∧
  response_of (get_task (on_task "t1" []))
    (world_after (delete_task (on_task "t1" [])) world_t1)
    = res_status_json 404 (failure "Task not found") ∧
  (∃ tasks,
    response_of (get_tasks (with_body []))
      (world_after (delete_task (on_task "t1" [])) world_t1)
      = listing tasks JNull ∧
    S (length tasks) = length (scan (task_store world_t1)) ∧
    (∀ t, t ∈ tasks → t ∈ scan (task_store world_t1))) ∧
  ∀ other, other ≠ "t1" →
    task_store (world_after (delete_task (on_task "t1" [])) world_t1) !! other
    = task_store world_t1 !! other.
Proof.
  apply (delete_read_back (on_task "t1" []) (on_task "t1" []) (with_body [])
           world_t1 "t1").
  - reflexivity.
  - reflexivity.
  - reflexivity.
  - exists task_t1. reflexivity.
  - by apply store_up_none.
Defined.

(** X15.  POST /tasks followed by DELETE /tasks/:id of the created task
    leaves the task table as it was before the two, when the generated
    id was not in use. *)
Theorem post_then_delete_restores (req del : Request) (w : World) :
  acceptable req w → store_up 4 w →
  task_store w !! next_id w = None →
  params del !! "id" = Some (next_id w) →
  status (response_of (post_tasks req) w) = 201 ∧
  status (response_of (delete_task del) (world_after (post_tasks req) w)) = 200 ∧
  task_store (world_after (delete_task del) (world_after (post_tasks req) w))
    = task_store w.
Proof.
  intros Hacc Hup Hfresh Hid.
  destruct (world_after_post req w Hacc (store_up_le 2 4 w ltac:(lia) Hup))
    as (Hr & Hts & _ & _ & _ & _ & Hf).
  assert (Hup2 : store_up 2 (world_after (post_tasks req) w))
    by (by apply (store_up_after_2 2 w)).
  assert (Hin : is_Some (task_store (world_after (post_tasks req) w) !! next_id w))
    by (rewrite Hts, lookup_insert_eq; by eexists).
  destruct (world_after_delete del _ (next_id w) Hid Hin Hup2)
    as (Hr' & Hts' & _).
  split; [by rewrite Hr |]. split; [exact Hr' |].
  rewrite Hts', Hts. by apply delete_insert_id.
Qed.

Lemma post_then_delete_restores_witness :
  status (response_of (post_tasks create_T1) world_b1) = 201 ∧
  status (response_of (delete_task (on_task (next_id world_b1) []))
            (world_after (post_tasks create_T1) world_b1)) = 200 ∧
  task_store (world_after (delete_task (on_task (next_id world_b1) []))
                (world_after (post_tasks create_T1) world_b1))
    = task_store world_b1.
Proof.
  apply (post_then_delete_restores create_T1 (on_task (next_id world_b1) [])
           world_b1).
  - by apply create_T1_acceptable.
  - by apply store_up_none.
  - apply lookup_empty.
  - apply lookup_singleton_eq.
Defined.


Lemma acceptable_boards (req : Request) (w w' : World) :
  board_store w' = board_store w → acceptable req w → acceptable req w'.
Proof. unfold acceptable. by intros ->. Qed.

(** X16.  Two tasks created one after the other are both stored when
    the clock has moved on between the two ids (and has 13 digits):
    the second POST /tasks does not take the id of the first. *)
Theorem post_twice_keeps_both (req1 req2 : Request) (w w1 w2 : World) :
  acceptable req1 w → acceptable req2 w → store_up 4 w →
  (10 ^ 12 ≤ clock_now w)%Z →
  (clock_now w < reading 3 w)%Z →
  (reading 3 w < 10 ^ 13)%Z →
  w1 = world_after (post_tasks req1) w →
  w2 = world_after (post_tasks req2) w1 →
  response_of (post_tasks req1) w = task_answer 201 (created req1 w) ∧
  response_of (post_tasks req2) w1 = task_answer 201 (created req2 w1) ∧
  next_id w1 ≠ next_id w ∧
  task_store w2 !! next_id w = Some (created req1 w) ∧
  task_store w2 !! next_id w1 = Some (created req2 w1).
Proof.
  intros Hacc1 Hacc2 Hup Hlo Hlt Hhi -> ->.
  destruct (world_after_post req1 w Hacc1 (store_up_le 2 4 w ltac:(lia) Hup))
    as (Hr1 & Hts1 & Hbs1 & Hnow1 & _ & _ & Hf1).
  assert (Hup2 : store_up 2 (world_after (post_tasks req1) w))
    by (by apply (store_up_after_2 2 w)).
  destruct (world_after_post req2 _ (acceptable_boards req2 w _ Hbs1 Hacc2) Hup2)
    as (Hr2 & Hts2 & _).
  assert (Hne : next_id (world_after (post_tasks req1) w) ≠ next_id w).
  { intros Heq. apply next_id_inj in Heq as [Heq _]; rewrite ?Hnow1; lia. }
  split; [exact Hr1 |]. split; [exact Hr2 |]. split; [exact Hne |].
  rewrite Hts2, Hts1. split.
  - rewrite lookup_insert_ne by done. by rewrite lookup_insert_eq.
  - by rewrite lookup_insert_eq.
Qed.

Lemma post_twice_keeps_both_witness :
  response_of (post_tasks create_T1) world_b1_ticking
    = task_answer 201 (created create_T1 world_b1_ticking) ∧
  response_of (post_tasks create_T1_empty_status)
    (world_after (post_tasks create_T1) world_b1_ticking)
    = task_answer 201
        (created create_T1_empty_status
           (world_after (post_tasks create_T1) world_b1_ticking)) ∧
  next_id (world_after (post_tasks create_T1) world_b1_ticking)
    ≠ next_id world_b1_ticking ∧
  task_store (world_after (post_tasks create_T1_empty_status)
                (world_after (post_tasks create_T1) world_b1_ticking))
    !! next_id world_b1_ticking
    = Some (created create_T1 world_b1_ticking) ∧
  task_store (world_after (post_tasks create_T1_empty_status)
                (world_after (post_tasks create_T1) world_b1_ticking))
    !! next_id (world_after (post_tasks create_T1) world_b1_ticking)
    = Some (created create_T1_empty_status
              (world_after (post_tasks create_T1) world_b1_ticking)).
Proof.
  apply (post_twice_keeps_both create_T1 create_T1_empty_status
           world_b1_ticking
           (world_after (post_tasks create_T1) world_b1_ticking)
           (world_after (post_tasks create_T1_empty_status)
              (world_after (post_tasks create_T1) world_b1_ticking))).
  - by apply create_T1_acceptable.
  - split; [reflexivity |]. split; [| reflexivity].
    exists "b1". split; [reflexivity |]. split; [discriminate |].
    by exists board_b1.
  - by apply store_up_none.
  - cbn. lia.
  - cbn. lia.
  - cbn. lia.
  - reflexivity.
  - reflexivity.
Defined.

(** X17.  POST /tasks never answers with a conflict.  When the
    generated id is already in use, the task stored under it is
    replaced, the answer is 201 all the same and the number of stored
    tasks stays as it is; when the id is new, the table grows by one.
    Either way no task under another id changes. *)
Theorem post_tasks_replaces_on_collision (req : Request) (w : World) :
  acceptable req w → store_up 2 w →
  response_of (post_tasks req) w = task_answer 201 (created req w) ∧
  task_store (world_after (post_tasks req) w) !! next_id w
    = Some (created req w) ∧
  size (task_store (world_after (post_tasks req) w))
    = match task_store w !! next_id w with
      | Some _ => size (task_store w)
      | None => S (size (task_store w))
      end ∧
  ∀ other, other ≠ next_id w →
    task_store (world_after (post_tasks req) w) !! other = task_store w !! other.
Proof.
  intros Hacc Hup.
  destruct (world_after_post req w Hacc Hup) as (Hr & Hts & _).
  rewrite Hts. split; [exact Hr |]. split; [by rewrite lookup_insert_eq |].
  split; [rewrite map_size_insert; by destruct (task_store w !! next_id w) |].
  intros other Hother. by rewrite lookup_insert_ne.
Qed.

Lemma post_tasks_replaces_on_collision_witness :
  response_of (post_tasks create_T1) world_b1
    = task_answer 201 (created create_T1 world_b1) ∧
  task_store (world_after (post_tasks create_T1) world_b1) !! next_id world_b1
    = Some (created create_T1 world_b1) ∧
  size (task_store (world_after (post_tasks create_T1) world_b1))
    = match task_store world_b1 !! next_id world_b1 with
      | Some _ => size (task_store world_b1)
      | None => S (size (task_store world_b1))
      end ∧
  ∀ other, other ≠ next_id world_b1 →
    task_store (world_after (post_tasks create_T1) world_b1) !! other
    = task_store world_b1 !! other.
Proof.
  apply (post_tasks_replaces_on_collision create_T1 world_b1).
  - by apply create_T1_acceptable.
  - by apply store_up_none.
Defined.

Lemma patch_lookup_now (req : Request) (t1 t2 : string) (old : item) (k : string) :
  k ≠ "updatedAt" → patch req t1 old !! k = patch req t2 old !! k.
Proof.
  intros Hk. unfold patch. repeat case_match;
    rewrite ?lookup_insert; repeat case_decide; congruence.
Qed.

Lemma patch_idem (req : Request) (t1 t2 : string) (old : item) :
  patch req t2 (patch req t1 old) = patch req t2 old.
Proof.
  apply map_eq. intros k. unfold patch. repeat case_match;
    rewrite ?lookup_insert; repeat case_decide; congruence.
Qed.

(** X18.  PUT /tasks/:id is idempotent but for [updatedAt]: sending the
    same update a second time leaves the table as one update at the
    time of the second would, so the stored task differs from the one
    after the first update in [updatedAt] at most. *)
Theorem put_twice (req : Request) (w w1 w2 : World) (id : string) (old : item) :
  params req !! "id" = Some id →
  task_store w !! id = Some old →
  status_passes req → store_up 4 w →
  w1 = world_after (put_task req) w →
  w2 = world_after (put_task req) w1 →
  response_of (put_task req) w1
    = task_answer 200 (patch req (toISOString (reading 1 w)) old) ∧
  task_store w2
    = <[id := patch req (toISOString (reading 1 w)) old]> (task_store w) ∧
  ∃ new1 new2,
    task_store w1 !! id = Some new1 ∧ task_store w2 !! id = Some new2 ∧
    ∀ k, k ≠ "updatedAt" → new2 !! k = new1 !! k.
Proof.
  intros Hid Hold Hst Hup -> ->.
  destruct (world_after_put req w id old Hid Hold
              (store_up_le 2 4 w ltac:(lia) Hup) Hst)
    as (Hr1 & Hts1 & _ & Hnow1 & Hf1).
  assert (Hup2 : store_up 2 (world_after (put_task req) w))
    by (by apply (store_up_after_2 2 w)).
  assert (Hold1 : task_store (world_after (put_task req) w) !! id
                  = Some (patch req (toISOString (clock_now w)) old))
    by (by rewrite Hts1, lookup_insert_eq).
  destruct (world_after_put req _ id _ Hid Hold1 Hup2 Hst)
    as (Hr2 & Hts2 & _).
  rewrite Hnow1, patch_idem in Hr2, Hts2.
  split; [exact Hr2 |]. split.
  - rewrite Hts2, Hts1. apply insert_insert_eq.
  - eexists _, _. split; [exact Hold1 |].
    split; [by rewrite Hts2, lookup_insert_eq |].
    intros k Hk. by apply patch_lookup_now.
Qed.

Lemma put_twice_witness :
  response_of (put_task (on_task "t1" [("status", JStr "done")]))
    (world_after (put_task (on_task "t1" [("status", JStr "done")])) world_t1_later)
    = task_answer 200
        (patch (on_task "t1" [("status", JStr "done")])
           (toISOString (reading 1 world_t1_later)) task_t1) ∧
  task_store
    (world_after (put_task (on_task "t1" [("status", JStr "done")]))
       (world_after (put_task (on_task "t1" [("status", JStr "done")]))
          world_t1_later))
    = <["t1" := patch (on_task "t1" [("status", JStr "done")])
                  (toISOString (reading 1 world_t1_later)) task_t1]>
        (task_store world_t1_later) ∧
  ∃ new1 new2,
    task_store (world_after (put_task (on_task "t1" [("status", JStr "done")]))
                  world_t1_later) !! "t1" = Some new1 ∧
    task_store
      (world_after (put_task (on_task "t1" [("status", JStr "done")]))
         (world_after (put_task (on_task "t1" [("status", JStr "done")]))
            world_t1_later)) !! "t1" = Some new2 ∧
    ∀ k, k ≠ "updatedAt" → new2 !! k = new1 !! k.
Proof.
  apply (put_twice (on_task "t1" [("status", JStr "done")]) world_t1_later
           (world_after (put_task (on_task "t1" [("status", JStr "done")]))
              world_t1_later)
           (world_after (put_task (on_task "t1" [("status", JStr "done")]))
              (world_after (put_task (on_task "t1" [("status", JStr "done")]))
                 world_t1_later))
           "t1" task_t1).
  - reflexivity.
  - reflexivity.
  - right. reflexivity.
  - by apply store_up_none.
  - reflexivity.
  - reflexivity.
Defined.


(** ** The dashboard and the list *)

Lemma get_dashboard_scan (req : Request) (w : World) :
  store_up 1 w →
  get_dashboard req w =
    (Returned (res_json (object
       [("success", JBool true);
        ("stats",
         JObj (stats_of (length (scan (task_store w)))
                 (length (with_status "todo" (scan (task_store w))))
                 (length (with_status "in-progress" (scan (task_store w))))
                 (length (with_status "done" (scan (task_store w))))));
        ("recentTasks",
         array (take 5 (Array_sort by_updatedAt_desc (scan (task_store w)))))])),
     next_call w).
Proof.
  intros Hup. unfold get_dashboard, try_catch, bind, ret.
  rewrite docClient_send_up by done.
  cbn [execute Items table next_call task_store passes].
  by rewrite filter_passes_None.
Qed.

Lemma groups_cover (tasks : list item) :
  Forall (λ t, includes validStatuses (attr t "status") = true) tasks →
  length (with_status "todo" tasks) + length (with_status "in-progress" tasks)
    + length (with_status "done" tasks) = length tasks.
Proof.
  unfold with_status. induction 1 as [|t tasks Ht _ IH]; [done |].
  cbn [List.filter].
  apply includes_spec in Ht as (s & -> & Hs).
  unfold validStatuses in Hs.
  repeat (apply elem_of_cons in Hs as [-> | Hs]); [| | | by apply elem_of_nil in Hs];
    simpl; lia.
Qed.

Lemma store_well_formed_statuses (w : World) :
  store_well_formed w →
  Forall (λ t, includes validStatuses (attr t "status") = true)
    (scan (task_store w)).
Proof.
  intros Hwf. apply Forall_forall. intros t Ht.
  apply elem_of_scan in Ht as [k Hk]. by destruct (Hwf k t Hk) as (_ & _ & ? & _).
Qed.

(** X19.  On a well-formed task table the counts of GET /dashboard add
    up: [todo], [inProgress] and [done] are the sizes of the three
    groups that GET /tasks answers for the same table, their sum is
    [total], and [total] is the number of stored tasks. *)
Theorem dashboard_counts_add_up (dash list : Request) (w : World) :
  store_well_formed w → store_up 1 w →
  truthy (query_param list "boardId") = false →
  ∃ tasks todo inProgress done recent,
    response_of (get_tasks list) w = listing tasks JNull ∧
    todo = length (with_status "todo" tasks) ∧
    inProgress = length (with_status "in-progress" tasks) ∧
    done = length (with_status "done" tasks) ∧
    response_of (get_dashboard dash) w =
      res_json (object
        [("success", JBool true);
         ("stats", JObj (stats_of (todo + inProgress + done) todo inProgress done));
         ("recentTasks", array recent)]) ∧
    todo + inProgress + done = size (task_store w).
Proof.
  intros Hwf Hup Hq.
  exists (scan (task_store w)). eexists _, _, _, _.
  split; [by apply (response_of_returned _ _ (next_call w)), get_tasks_all |].
  split; [reflexivity |]. split; [reflexivity |]. split; [reflexivity |].
  pose proof (groups_cover _ (store_well_formed_statuses w Hwf)) as Hsum.
  rewrite Hsum. split; [| apply length_scan].
  by apply (response_of_returned _ _ (next_call w)), get_dashboard_scan.
Qed.

Lemma dashboard_counts_add_up_witness :
  ∃ tasks todo inProgress done recent,
    response_of (get_tasks (with_body [])) world_t1 = listing tasks JNull ∧
    todo = length (with_status "todo" tasks) ∧
    inProgress = length (with_status "in-progress" tasks) ∧
    done = length (with_status "done" tasks) ∧
    response_of (get_dashboard (with_body [])) world_t1 =
      res_json (object
        [("success", JBool true);
         ("stats", JObj (stats_of (todo + inProgress + done) todo inProgress done));
         ("recentTasks", array recent)]) ∧
    todo + inProgress + done = size (task_store world_t1).
Proof.
  apply (dashboard_counts_add_up (with_body []) (with_body []) world_t1).
  - exact world_t1_well_formed.
  - by apply store_up_none.
  - reflexivity.
Defined.

(** ** A store that fails at the second call *)

Lemma docClient_send_down (c : Command) (w : World) :
  hd false (store_faults w) = true →
  docClient_send c w = (Thrown "ServiceUnavailable", next_call w).
Proof.
  intros Hfault. unfold docClient_send.
  destruct (store_faults w) as [|[] ?]; simpl in Hfault; done.
Qed.

(** X20.  When the store answers the first call of a handler and fails
    the second, which is the write, the handler answers 500 with its
    own message and the task table is as it was: POST /tasks after the
    lookup of the board, PUT and DELETE /tasks/:id after the lookup of
    the task. *)
Theorem write_failure_500 (create upd del : Request) (w : World)
    (faults : list bool) (id : string) :
  store_faults w = false :: true :: faults →
  acceptable create w →
  params upd !! "id" = Some id → status_passes upd →
  params del !! "id" = Some id →
  is_Some (task_store w !! id) →
  (response_of (post_tasks create) w
     = res_status_json 500 (failure "Error creating task") ∧
   task_store (world_after (post_tasks create) w) = task_store w) ∧
  (response_of (put_task upd) w
     = res_status_json 500 (failure "Error updating task") ∧
   task_store (world_after (put_task upd) w) = task_store w) ∧
  (response_of (delete_task del) w
     = res_status_json 500 (failure "Error deleting task") ∧
   task_store (world_after (delete_task del) w) = task_store w).
Proof.
  intros Hf (Ht & (b & Hb & Hne & [board Hboard]) & Hstatus) Hupd Hst Hdel
    [old Hold].
  assert (Hup : store_up 1 w).
  { unfold store_up. rewrite Hf. by repeat constructor. }
  assert (Hdown : ∀ w', store_faults w' = store_faults (next_call w) →
                        hd false (store_faults w') = true).
  { intros w' ->. cbn [next_call store_faults]. by rewrite Hf. }
  split; [| split].
  - unfold response_of, world_after, post_tasks. unfold field in *.
    rewrite Ht, Hb.
    assert (truthy (JStr b) = true) as ->.
    { simpl. apply negb_true_iff, String.eqb_neq. done. }
    unfold try_catch, bind, ret, generateId, new_Date_toISOString, Date_now,
      Math_random_suffix, bind, ret.
    cbn [negb]. rewrite docClient_send_up by done.
    rewrite execute_get_board. cbn [Item next_call board_store]. rewrite Hboard.
    rewrite Hstatus. cbn [negb]. cbv beta iota zeta.
    rewrite docClient_send_down by (by apply Hdown).
    done.
  - unfold response_of, world_after, put_task.
    unfold status_passes, field in Hst.
    rewrite (param_id _ _ Hupd).
    unfold try_catch, bind, ret, new_Date_toISOString, Date_now, bind, ret.
    rewrite docClient_send_up by done.
    rewrite execute_get_task. cbn [Item next_call task_store]. rewrite Hold.
    destruct (truthy (attr (body upd) "title")) eqn:Ht';
    destruct (defined (attr (body upd) "description")) eqn:Hd;
    destruct (truthy (attr (body upd) "status")) eqn:Hs;
    try (destruct Hst as [Hst | Hst]; [discriminate | rewrite Hst]);
    cbn [negb]; cbv beta iota zeta;
    rewrite docClient_send_down by (by apply Hdown); done.
  - unfold response_of, world_after, delete_task. rewrite (param_id _ _ Hdel).
    unfold try_catch, bind, ret.
    rewrite docClient_send_up by done.
    rewrite execute_get_task. cbn [Item next_call task_store]. rewrite Hold.
    rewrite docClient_send_down by (by apply Hdown). done.
Qed.

Lemma write_failure_500_witness :
  (response_of (post_tasks create_T1) world_t1_write_down
     = res_status_json 500 (failure "Error creating task") ∧
   task_store (world_after (post_tasks create_T1) world_t1_write_down)
     = task_store world_t1_write_down) ∧
  (response_of (put_task (on_task "t1" [("status", JStr "done")]))
     world_t1_write_down
     = res_status_json 500 (failure "Error updating task") ∧
   task_store (world_after (put_task (on_task "t1" [("status", JStr "done")]))
                 world_t1_write_down)
     = task_store world_t1_write_down) ∧
  (response_of (delete_task (on_task "t1" [])) world_t1_write_down
     = res_status_json 500 (failure "Error deleting task") ∧
   task_store (world_after (delete_task (on_task "t1" [])) world_t1_write_down)
     = task_store world_t1_write_down).
Proof.
  apply (write_failure_500 create_T1 (on_task "t1" [("status", JStr "done")])
           (on_task "t1" []) world_t1_write_down [] "t1").
  - reflexivity.
  - by apply create_T1_acceptable.
  - reflexivity.
  - right. reflexivity.
  - reflexivity.
  - exists task_t1. reflexivity.
Defined.

(** ** GET /health and GET /boards *)

(** X21.  GET /health does not look at the store: it answers 200 with
    the time of the server's clock whether the store answers or not,
    makes no store call and writes nothing; and the time stamp it
    sends reads back as the clock reading. *)
Theorem health_without_store (h : HttpRequest) (b : item) (w : World) :
  method h = GET → path h = ["health"] → payload h = Some b →
  (Z.abs (clock_now w) ≤ 8640000000000000)%Z →
  (app h w).1 = Body (health_answer (clock_now w)) ∧
  code (app h w).1 = 200 ∧
  store_faults (app h w).2 = store_faults w ∧
  task_store (app h w).2 = task_store w ∧
  board_store (app h w).2 = board_store w ∧
  Date_value (attr (default ∅ (content (app h w).1)) "timestamp")
    = Some (clock_now w).
Proof.
  intros Hm Hp Hb Hrange.
  assert (Hr : route h b = get_health (request [] h b))
    by (unfold route; rewrite Hm, Hp; reflexivity).
  assert (Hh : handled h w = (health_answer (clock_now w), tick w)).
  { unfold handled. rewrite Hb, Hr. reflexivity. }
  rewrite app_handled by congruence. rewrite Hm, Hh.
  cbn [fst snd]. repeat (split; [reflexivity |]).
  cbn [content default]. unfold health_answer, res_json, res_status_json.
  cbn [json].
  replace (attr _ "timestamp") with (JStr (toISOString (clock_now w)))
    by reflexivity.
  cbn [Date_value]. by apply Date_parse_toISOString.
Qed.

Lemma health_without_store_witness :
  (app (http GET ["health"] []) world_t1_down).1
    = Body (health_answer (clock_now world_t1_down)) ∧
  code (app (http GET ["health"] []) world_t1_down).1 = 200 ∧
  store_faults (app (http GET ["health"] []) world_t1_down).2
    = store_faults world_t1_down ∧
  task_store (app (http GET ["health"] []) world_t1_down).2
    = task_store world_t1_down ∧
  board_store (app (http GET ["health"] []) world_t1_down).2
    = board_store world_t1_down ∧
  Date_value (attr (default ∅ (content (app (http GET ["health"] [])
                                         world_t1_down).1)) "timestamp")
    = Some (clock_now world_t1_down).
Proof.
  apply (health_without_store (http GET ["health"] []) (object []) world_t1_down).
  - reflexivity.
  - reflexivity.
  - reflexivity.
  - cbn. lia.
Defined.

Lemma get_boards_scan (req : Request) (w : World) :
  store_up 1 w →
  get_boards req w =
    (Returned (res_json (object
       [("success", JBool true);
        ("boards", array (scan (board_store w)));
        ("total", JNum (number_of_nat (length (scan (board_store w)))))])),
     next_call w).
Proof.
  intros Hup. unfold get_boards, try_catch, bind, ret.
  rewrite docClient_send_up by done.
  cbn [execute Items table next_call board_store].
  by rewrite filter_passes_None.
Qed.

Lemma sample_session_store_up : store_up 1 (serve sample_session world_t1).2.
Proof. apply store_up_none. vm_compute. reflexivity. Qed.

(** X4.  The boards are fixed: GET /boards lists every stored board,
    with their number as [total], and answers the same after any
    sequence of requests as before it, since no route writes the board
    table. *)
Theorem boards_are_fixed (hs : list HttpRequest) (req : Request) (w : World) :
  store_up 1 w → store_up 1 (serve hs w).2 →
  (∃ boards,
     response_of (get_boards req) w =
       res_json (object [("success", JBool true);
                         ("boards", array boards);
                         ("total", JNum (number_of_nat (size (board_store w))))]) ∧
     ∀ it, it ∈ boards ↔ ∃ k, board_store w !! k = Some it) ∧
  response_of (get_boards req) (serve hs w).2 = response_of (get_boards req) w.
Proof.
  intros Hup Hup'.
  destruct (response_of_returned _ _ _ _ (get_boards_scan req w Hup)) as [Hr _].
  destruct (response_of_returned _ _ _ _ (get_boards_scan req _ Hup')) as [Hr' _].
  split.
  - exists (scan (board_store w)). rewrite <- length_scan.
    split; [exact Hr |]. intros it. apply elem_of_scan.
  - rewrite Hr, Hr'. by rewrite serve_board_store.
Qed.

Lemma boards_are_fixed_witness :
  (∃ boards,
     response_of (get_boards (with_body [])) world_t1 =
       res_json (object
         [("success", JBool true);
          ("boards", array boards);
          ("total", JNum (number_of_nat (size (board_store world_t1))))]) ∧
     ∀ it, it ∈ boards ↔ ∃ k, board_store world_t1 !! k = Some it) ∧
  response_of (get_boards (with_body [])) (serve sample_session world_t1).2
    = response_of (get_boards (with_body [])) world_t1.
Proof.
  apply (boards_are_fixed sample_session (with_body []) world_t1).
  - by apply store_up_none.
  - exact sample_session_store_up.
Defined.
